(** * Authorization-aware data access of the file-share sample

    A shallow embedding of the server actions on users (the module
    [@/actions/user], the TypeScript that follows the policy in
    [oso-policy.polar]): [getReadableUsersWithPermissions], [createUser],
    [deleteUser] and [editUsersRoleByUsername]; together with the part of
    PostgreSQL they talk to: the [users] and [organizations] tables of the
    schema, the SQL statements the actions send, and the transaction state
    of the connection.

    The actions are effectful: they take a pooled connection, call the policy
    evaluator, send statements, throw, catch and release.  They are embedded in
    a state-and-exception monad over a [world] that records the tables, the
    transaction state of the connection and the chronicle of every effect.

    What is outside the sources is a parameter: the evaluator ([oso.listLocal]
    and the point check [authorizeUser] built on it) and [stringifyError].
    The policy of [oso-policy.polar] over the facts of the local
    authorization configuration gives one evaluator to run the actions
    with.  Transport failures of the evaluator are not modelled, and the
    actions are embedded from the point where [pool.connect] has given a
    connection ([with_pool] puts the pool's answer in front of one); the
    failures of statements are modelled: the errors the statements
    themselves can raise, and cancellation. *)

From Stdlib Require Import String Ascii List Arith ZArith Lia Bool.
From Stdlib Require Import DecimalString Permutation.
Import ListNotations.
Local Open Scope string_scope.

(** ** JavaScript arrays and strings, as far as the actions use them *)

Module Js.

(** [`${n}`] for a non-negative integer. *)
Definition number_toString (n : nat) : string :=
  NilEmpty.string_of_uint (Nat.to_uint n).

(** [Array.prototype.join]. *)
Definition join (sep : string) (l : list string) : string :=
  String.concat sep l.

(** [Array.prototype.map] with the callback's index argument. *)
Fixpoint mapi_from {A B : Type} (i : nat) (f : A -> nat -> B) (l : list A)
  : list B :=
  match l with
  | [] => []
  | x :: t => f x i :: mapi_from (S i) f t
  end.

Definition mapi {A B : Type} (f : A -> nat -> B) (l : list A) : list B :=
  mapi_from 0 f l.

(** [Array.prototype.findIndex]: the first index whose element passes, or
    [-1]. *)
Fixpoint findIndex_from {A : Type} (p : A -> bool) (i : Z) (l : list A) : Z :=
  match l with
  | [] => (-1)%Z
  | x :: t => if p x then i else findIndex_from p (i + 1)%Z t
  end.

Definition findIndex {A : Type} (p : A -> bool) (l : list A) : Z :=
  findIndex_from p 0%Z l.

(** [Array.prototype.splice(start, deleteCount)].  The array is mutated in
    place; the pair is (the removed elements, the array afterwards).  A
    negative [start] counts from the end, an overlong one is clamped. *)
Definition splice {A : Type} (start : Z) (deleteCount : nat) (l : list A)
  : list A * list A :=
  let len := Z.of_nat (length l) in
  let s := if (start <? 0)%Z then Z.max (len + start) 0 else Z.min start len in
  let k := Z.to_nat s in
  (firstn deleteCount (skipn k l),
   (firstn k l ++ skipn (k + deleteCount) l)%list).

End Js.

(** ** Data model *)

(** [User] of [@/lib/relations]: a row of the [users] table. *)
Record User := mkUser { username : string; org : string; role : string }.

(** [ReadableUser]: a user the requestor may read, with the two further
    permissions as booleans. *)
Record ReadableUser := mkReadableUser {
  ru_username : string;
  ru_org : string;
  ru_role : string;
  ru_editRole : bool;
  ru_deleteUser : bool
}.

(** What the evaluator is asked about: [{ type, id }]. *)
Record OsoValue := mkOsoValue { oso_type : string; oso_id : string }.

(** [Result<T>] of [@/lib/result]: [{success: true, value}] or
    [{success: false, error}]. *)
Inductive Result (T : Type) : Type :=
| Success (value : T)
| Failure (error : string).
Arguments Success {T} value.
Arguments Failure {T} error.

(** The form posted to [createUser].  The action reads the three fields with
    [formData.get(...) as string]; the cast is taken at its word. *)
Record FormData := mkFormData {
  fd_username : string;
  fd_organization : string;
  fd_role : string
}.

(** ** The database *)

(** The two tables of the schema that the user actions touch.
    [users.username] is the primary key, [users.org] references
    [organizations (name)]. *)
Record database := mkDatabase {
  organizations : list string;
  users : list User
}.

(** [CREATE TYPE organization_role AS ENUM ('member', 'admin')]. *)
Definition organization_role : list string := ["member"; "admin"].

Definition mem_string (x : string) (l : list string) : bool :=
  existsb (String.eqb x) l.

(** The primary key of [users]. *)
Definition users_pk (d : database) : Prop := NoDup (map username (users d)).

(** The errors the server answers a statement with. *)
Inductive pg_error :=
| syntax_error
| protocol_violation
| invalid_text_representation (input : string)
| unique_violation
| foreign_key_violation
| in_failed_sql_transaction
| query_canceled.

(** What the actions throw and catch: a JavaScript [Error] made with
    [new Error(message)], or the error the driver rejects a query with. *)
Inductive exn :=
| JsError (message : string)
| PgError (code : pg_error).

(** A predicate fragment: the text the evaluator hands out for one column,
    with what that text denotes when the server evaluates it on a row, given
    the value of the bound column and the tables the text's subqueries read. *)
Record Fragment := mkFragment {
  frag_text : string;
  frag_holds : database -> string -> bool
}.

(** [QueryResult] of the driver. *)
Record QueryResult := mkQueryResult {
  rows : list ReadableUser;
  rowCount : nat
}.

(** What a statement does once the server has parsed it. *)
Inductive sql_meaning :=
| TxBegin
| TxCommit
| TxRollback
| Select (run : list string -> database -> pg_error + list ReadableUser)
| Modify (run : list string -> database -> pg_error + database * nat).

(** A statement as the actions write it: its text, as it goes over the wire,
    and what the server does on that text.  The actions below build the text
    the way the source does; the meaning put beside it is the reading of that
    SQL over the two tables. *)
Record Sql := mkSql { sql_text : string; sql_meaning_of : sql_meaning }.

Definition mutating (q : Sql) : bool :=
  match sql_meaning_of q with
  | Modify _ => true
  | _ => false
  end.

(** *** [ORDER BY username]

    By the byte order of the names; the collation of the database decides
    the real order, and nothing below depends on which order it is. *)

Fixpoint insert_by_username (x : ReadableUser) (l : list ReadableUser)
  : list ReadableUser :=
  match l with
  | [] => [x]
  | y :: t =>
      if String.leb (ru_username x) (ru_username y) then x :: y :: t
      else y :: insert_by_username x t
  end.

Fixpoint order_by_username (l : list ReadableUser) : list ReadableUser :=
  match l with
  | [] => []
  | x :: t => insert_by_username x (order_by_username t)
  end.

(** *** The statements of the user actions *)

(** [SELECT username, org, role, <edit> as editRole, <delete> as deleteUser
     FROM users WHERE <read> ORDER BY username]. *)
Definition select_users (editC deleteC readC : Fragment) (d : database)
  : list ReadableUser :=
  order_by_username
    (map (fun u => {| ru_username := username u;
                      ru_org := org u;
                      ru_role := role u;
                      ru_editRole := frag_holds editC d (username u);
                      ru_deleteUser := frag_holds deleteC d (username u) |})
         (filter (fun u => frag_holds readC d (username u)) (users d))).

Definition run_select_users (editC deleteC readC : Fragment)
    (params : list string) (d : database) : pg_error + list ReadableUser :=
  match params with
  | [] => inr (select_users editC deleteC readC d)
  | _ => inl protocol_violation
  end.

(** [INSERT INTO users (username, org, role)
     VALUES ($1, $2, $3::organization_role)].  The cast is evaluated first,
    then the primary key, then the foreign key. *)
Definition run_insert_user (params : list string) (d : database)
  : pg_error + database * nat :=
  match params with
  | [u; o; r] =>
      if negb (mem_string r organization_role)
      then inl (invalid_text_representation r)
      else if mem_string u (map username (users d)) then inl unique_violation
      else if negb (mem_string o (organizations d))
      then inl foreign_key_violation
      else inr ({| organizations := organizations d;
                   users := (users d ++ [mkUser u o r])%list |}, 1)
  | _ => inl protocol_violation
  end.

(** [DELETE FROM users WHERE username = $1]. *)
Definition run_delete_user (params : list string) (d : database)
  : pg_error + database * nat :=
  match params with
  | [u] =>
      let gone := filter (fun x => username x =? u) (users d) in
      inr ({| organizations := organizations d;
              users := filter (fun x => negb (username x =? u)) (users d) |},
           length gone)
  | _ => inl protocol_violation
  end.

(** The rows of [(VALUES ($1, $2), ($3, $4), ...) AS v(username, role)]. *)
Fixpoint values_rows (params : list string) : list (string * string) :=
  match params with
  | u :: r :: rest => (u, r) :: values_rows rest
  | _ => []
  end.

(** The rows of [v] that a row of [users] joins with under
    [WHERE users.username = v.username AND <cond>]. *)
Definition joined (cond : Fragment) (d : database)
    (vals : list (string * string)) (u : User) : list (string * string) :=
  if frag_holds cond d (username u)
  then filter (fun v => username u =? fst v) vals
  else [].

Definition set_role (u : User) (r : string) : User :=
  {| username := username u; org := org u; role := r |}.

(** [UPDATE users SET role = v.role::organization_role FROM (VALUES ...) AS v
     WHERE users.username = v.username AND <cond>] with [n] rows of values.
    An empty [VALUES] list does not parse.  The cast runs on every joined row;
    a row of [users] that joins is updated once, from its first joined row,
    and counted once however many rows of [v] name it. *)
Definition run_update_roles (cond : Fragment) (n : nat)
    (params : list string) (d : database) : pg_error + database * nat :=
  if (n =? 0)%nat then inl syntax_error
  else if negb (length params =? 2 * n)%nat then inl protocol_violation
  else
    let vals := values_rows params in
    match find (fun v => negb (mem_string (snd v) organization_role))
               (flat_map (joined cond d vals) (users d)) with
    | Some v => inl (invalid_text_representation (snd v))
    | None =>
        inr ({| organizations := organizations d;
                users := map (fun u => match joined cond d vals u with
                                       | [] => u
                                       | v :: _ => set_role u (snd v)
                                       end) (users d) |},
             length (filter (fun u => match joined cond d vals u with
                                      | [] => false
                                      | _ :: _ => true
                                      end) (users d)))
    end.

(** ** The connection *)

(** The transaction state of the connection.  [InTxn saved] and
    [Aborted saved] keep the tables as they were at [BEGIN], which is what a
    rollback returns to and what every other session still sees. *)
Inductive txn_state :=
| NoTxn
| InTxn (saved : database)
| Aborted (saved : database).

(** The effects of an action, as an observer of the process sees them. *)
Inductive event :=
| EvConnect
| EvListLocal (actor : OsoValue) (action resource_type column : string)
| EvAuthorize (requestor action : string) (resource : OsoValue)
              (allowed : bool)
| EvQuery (q : Sql) (params : list string)
| EvConsoleError (label : string) (error : exn)
| EvRelease.

(** [db] is what the statements of this connection read and write, [txn] its
    transaction state, [faults] says for each coming statement whether it is
    cancelled before it runs ([true]; none when the list is used up), and
    [trace] is the chronicle of effects, the latest first. *)
Record world := mkWorld {
  db : database;
  txn : txn_state;
  faults : list bool;
  trace : list event
}.

(** The tables as committed: what survives a rollback and what the other
    sessions read. *)
Definition committed (w : world) : database :=
  match txn w with
  | NoTxn => db w
  | InTxn saved | Aborted saved => saved
  end.

Definition txn_open (w : world) : bool :=
  match txn w with
  | NoTxn => false
  | _ => true
  end.

Definition txn_aborted (w : world) : bool :=
  match txn w with
  | Aborted _ => true
  | _ => false
  end.

(** Whether the next statement is cancelled. *)
Definition cancelled (w : world) : bool := hd false (faults w).

Definition no_rows (n : nat) : QueryResult := {| rows := []; rowCount := n |}.

(** A statement that fails inside a transaction block aborts the block. *)
Definition failed (e : pg_error) (d : database) (t : txn_state)
  : (pg_error + QueryResult) * database * txn_state :=
  (inl e, d, match t with InTxn saved => Aborted saved | _ => t end).

(** The server running one statement.  Transaction control never fails
    ([BEGIN] inside a block and [COMMIT]/[ROLLBACK] outside one only warn;
    [COMMIT] of an aborted block rolls back); any other statement is refused
    while the block is aborted. *)
Definition server_exec (m : sql_meaning) (params : list string)
    (d : database) (t : txn_state)
  : (pg_error + QueryResult) * database * txn_state :=
  match m, t with
  | TxBegin, NoTxn => (inr (no_rows 0), d, InTxn d)
  | TxBegin, InTxn _ => (inr (no_rows 0), d, t)
  | TxCommit, NoTxn | TxCommit, InTxn _ => (inr (no_rows 0), d, NoTxn)
  | TxCommit, Aborted saved => (inr (no_rows 0), saved, NoTxn)
  | TxRollback, NoTxn => (inr (no_rows 0), d, NoTxn)
  | TxRollback, InTxn saved | TxRollback, Aborted saved =>
      (inr (no_rows 0), saved, NoTxn)
  | _, Aborted _ => failed in_failed_sql_transaction d t
  | Select run, _ =>
      match run params d with
      | inl e => failed e d t
      | inr rs => (inr {| rows := rs; rowCount := length rs |}, d, t)
      end
  | Modify run, _ =>
      match run params d with
      | inl e => failed e d t
      | inr (d', n) => (inr (no_rows n), d', t)
      end
  end.

(** *** Reading a chronicle *)

Definition is_mutation (ev : event) : bool :=
  match ev with
  | EvQuery q _ => mutating q
  | _ => false
  end.

(** The statements of a chronicle, each as it goes over the wire: its text
    and its bound parameters. *)
Fixpoint statements (t : list event) : list (string * list string) :=
  match t with
  | [] => []
  | EvQuery q params :: earlier => (sql_text q, params) :: statements earlier
  | _ :: earlier => statements earlier
  end.

(** In a chronicle (the latest effect first), every mutating statement has
    the event [grant] somewhere before it. *)
Fixpoint guarded_by (grant : event) (t : list event) : Prop :=
  match t with
  | [] => True
  | ev :: earlier =>
      (is_mutation ev = true -> In grant earlier) /\ guarded_by grant earlier
  end.

(** ** The monad of the actions *)

Inductive outcome (A : Type) : Type :=
| Normal (a : A)
| Thrown (e : exn).
Arguments Normal {A} a.
Arguments Thrown {A} e.

Definition M (A : Type) : Type := world -> outcome A * world.

Definition ret {A : Type} (a : A) : M A := fun w => (Normal a, w).

Definition throw {A : Type} (e : exn) : M A := fun w => (Thrown e, w).

Definition bind {A B : Type} (c : M A) (k : A -> M B) : M B :=
  fun w =>
    match c w with
    | (Normal a, w') => k a w'
    | (Thrown e, w') => (Thrown e, w')
    end.

Notation "x <- c ;; k" := (bind c (fun x => k))
  (at level 61, c at next level, right associativity).
Notation "c ;; k" := (bind c (fun _ => k))
  (at level 61, right associativity).

(** [try { body } catch (error) { handler } finally { finalizer }]. *)
Definition try_catch_finally {A : Type} (body : M A) (handler : exn -> M A)
    (finalizer : M unit) : M A :=
  fun w =>
    let (r, w1) :=
      match body w with
      | (Normal a, w') => (Normal a, w')
      | (Thrown e, w') => handler e w'
      end in
    match finalizer w1 with
    | (Normal _, w2) => (r, w2)
    | (Thrown e, w2) => (Thrown e, w2)
    end.

Definition log (ev : event) (w : world) : world :=
  {| db := db w; txn := txn w; faults := faults w; trace := ev :: trace w |}.

(** [pool.connect()] and [client.release()]. *)
Definition pool_connect : M unit := fun w => (Normal tt, log EvConnect w).

Definition client_release : M unit := fun w => (Normal tt, log EvRelease w).

Definition console_error (label : string) (error : exn) : M unit :=
  fun w => (Normal tt, log (EvConsoleError label error) w).

(** [await client.query(text, params)]: the statement goes to the server and
    the action waits for the answer; an error answer is thrown. *)
Definition client_query (q : Sql) (params : list string) : M QueryResult :=
  fun w =>
    let '(answer, d, t) :=
      if cancelled w then failed query_canceled (db w) (txn w)
      else server_exec (sql_meaning_of q) params (db w) (txn w) in
    let w' := {| db := d; txn := t; faults := tl (faults w);
                 trace := EvQuery q params :: trace w |} in
    match answer with
    | inr r => (Normal r, w')
    | inl e => (Thrown (PgError e), w')
    end.

(** [client.query(text)] with no [await]: the statement is queued on the
    connection, which runs its statements in the order they were queued, and
    the action goes on without the answer. *)
Definition client_query_detached (q : Sql) (params : list string) : M unit :=
  fun w => (Normal tt, snd (client_query q params w)).

(** ** What the actions import *)

(** [@/lib/oso] and [@/lib/result] are not part of the sources at hand; the
    actions are embedded over what they import from them.  [oso_listLocal] is
    [oso.listLocal(actor, action, resourceType, column)]; [authorizeUser] is
    the point check, which reads the tables through the client it is given;
    [stringifyError] renders a caught error for the form. *)
Class Imports := {
  oso_listLocal : OsoValue -> string -> string -> string -> Fragment;
  authorizeUser : database -> string -> string -> OsoValue -> bool;
  stringifyError : exn -> string
}.

(** The evaluator agrees with itself: a row that passes the fragment compiled
    for an action passes the point check of that action. *)
Class Coherent (I : Imports) : Prop :=
  listLocal_sound :
    forall actor action column d u,
      frag_holds (oso_listLocal (mkOsoValue "User" actor) action "User" column)
                 d u = true ->
      authorizeUser d actor action (mkOsoValue "User" u) = true.

(** ** The user actions *)

Definition dquote : string := String "034"%char EmptyString.

Definition BEGIN : Sql := {| sql_text := "BEGIN"; sql_meaning_of := TxBegin |}.
Definition COMMIT : Sql := {| sql_text := "COMMIT"; sql_meaning_of := TxCommit |}.
Definition ROLLBACK : Sql :=
  {| sql_text := "ROLLBACK"; sql_meaning_of := TxRollback |}.

(** What [getReadableUsersWithPermissions] resolves to. *)
Module Readable.
Record t := mk { users : list ReadableUser; thisUser : option ReadableUser }.
End Readable.

Section Actions.

Context {I : Imports}.

Definition listLocal (actor : OsoValue) (action resource_type column : string)
  : M Fragment :=
  fun w =>
    (Normal (oso_listLocal actor action resource_type column),
     log (EvListLocal actor action resource_type column) w).

Definition authorize (requestor action : string) (resource : OsoValue)
  : M bool :=
  fun w =>
    let auth := authorizeUser (db w) requestor action resource in
    (Normal auth, log (EvAuthorize requestor action resource auth) w).

(** The fragments an action compiles for its requestor, under the names
    the actions give them. *)
Definition readableUsersCond (requestor : string) : Fragment :=
  oso_listLocal (mkOsoValue "User" requestor) "read" "User" "username".

Definition editableRoleUsersCond (requestor : string) : Fragment :=
  oso_listLocal (mkOsoValue "User" requestor) "edit_role" "User" "username".

Definition deleteUsersCond (requestor : string) : Fragment :=
  oso_listLocal (mkOsoValue "User" requestor) "delete" "User" "username".

Definition editRoleAuthorized (requestor : string) : Fragment :=
  oso_listLocal (mkOsoValue "User" requestor) "edit_role" "User"
    "users.username".

(** The rows the requestor's read query selects from the tables [d]. *)
Definition readable_rows (requestor : string) (d : database)
  : list ReadableUser :=
  select_users (editableRoleUsersCond requestor) (deleteUsersCond requestor)
    (readableUsersCond requestor) d.

(** The one query of [getReadableUsersWithPermissions]. *)
Definition usersWPermissionsText (editableRoleUsersCond deleteUsersCond
    readableUsersCond : string) : string :=
  "SELECT
        username,
        org,
        role,
        " ++ editableRoleUsersCond ++ " as " ++ dquote ++ "editRole" ++ dquote ++ ",
        " ++ deleteUsersCond ++ " as " ++ dquote ++ "deleteUser" ++ dquote ++ "
      FROM users
      WHERE " ++ readableUsersCond ++ "
      ORDER BY username".

Definition usersWPermissions (editableRoleUsersCond deleteUsersCond
    readableUsersCond : Fragment) : Sql :=
  {| sql_text := usersWPermissionsText (frag_text editableRoleUsersCond)
                   (frag_text deleteUsersCond) (frag_text readableUsersCond);
     sql_meaning_of :=
       Select (run_select_users editableRoleUsersCond deleteUsersCond
                 readableUsersCond) |}.

(** Returns readable users with additional permissions set: [thisUser] is
    the requestor's own row, [users] all other rows the requestor may
    read.  [thisUser] is the first element of what [splice] removed
    ([undefined], here [None], had it removed nothing). *)
Definition getReadableUsersWithPermissions (requestor : string)
  : M Readable.t :=
  let osoUser := {| oso_type := "User"; oso_id := requestor |} in
  pool_connect ;;
  try_catch_finally
    (readableUsersCond <- listLocal osoUser "read" "User" "username" ;;
     editableRoleUsersCond <-
       listLocal osoUser "edit_role" "User" "username" ;;
     deleteUsersCond <- listLocal osoUser "delete" "User" "username" ;;
     usersWPermissionsRes <-
       client_query
         (usersWPermissions editableRoleUsersCond deleteUsersCond
            readableUsersCond) [] ;;
     let users := rows usersWPermissionsRes in
     let userIndex :=
       Js.findIndex (fun user => ru_username user =? requestor) users in
     if (userIndex =? -1)%Z
     then throw (JsError ("user " ++ requestor ++ " not found"))
     else
       let '(removed, users) := Js.splice userIndex 1 users in
       ret {| Readable.users := users;
              Readable.thisUser := hd_error removed |})
    (fun error =>
       console_error "Error in getReadableUsersWithPermissions:" error ;;
       throw error)
    client_release.

(** The query [getReadableUsersWithPermissions] sends for a requestor, and
    the effects of the action up to and including it, the latest first. *)
Definition read_query (requestor : string) : Sql :=
  usersWPermissions (editableRoleUsersCond requestor)
    (deleteUsersCond requestor) (readableUsersCond requestor).

Definition read_effects (requestor : string) : list event :=
  [ EvQuery (read_query requestor) [];
    EvListLocal (mkOsoValue "User" requestor) "delete" "User" "username";
    EvListLocal (mkOsoValue "User" requestor) "edit_role" "User" "username";
    EvListLocal (mkOsoValue "User" requestor) "read" "User" "username";
    EvConnect ].

Definition insertUser : Sql :=
  {| sql_text :=
       "INSERT INTO users (username, org, role) VALUES ($1, $2, $3::organization_role);";
     sql_meaning_of := Modify run_insert_user |}.

(** Creates a new user on an organization with a specified role; requires
    the [create_user] permission on the organization.  [p_requestor] is
    [p.requestor], bound where the action is made a form action. *)
Definition createUser (p_requestor : string)
    (_prevState : option (Result string)) (formData : FormData)
  : M (Result string) :=
  let data := {| username := fd_username formData;
                 org := fd_organization formData;
                 role := fd_role formData |} in
  pool_connect ;;
  try_catch_finally
    (auth <- authorize p_requestor "create_user"
               {| oso_type := "Organization"; oso_id := org data |} ;;
     if negb auth
     then ret (Failure ("not permitted to create user in Organization "
                        ++ org data))
     else
       client_query insertUser [username data; org data; role data] ;;
       ret (Success (username data)))
    (fun error => ret (Failure (stringifyError error)))
    client_release.

Definition deleteUserStmt : Sql :=
  {| sql_text := "DELETE FROM users WHERE username = $1;";
     sql_meaning_of := Modify run_delete_user |}.

(** Deletes the specified user; requires the [delete] permission on it. *)
Definition deleteUser (requestor username : string) : M unit :=
  pool_connect ;;
  try_catch_finally
    (auth <- authorize requestor "delete"
               {| oso_type := "User"; oso_id := username |} ;;
     if negb auth
     then throw (JsError ("not permitted to delete User " ++ username))
     else
       client_query deleteUserStmt [username] ;;
       ret tt)
    (fun error => console_error "Error in deleteUser:" error ;; throw error)
    client_release.

(** The placeholders of one row of [VALUES]: [($2i+1, $2i+2)]. *)
Definition placeholders (i : nat) : string :=
  "($" ++ Js.number_toString (i * 2 + 1) ++ ", $"
       ++ Js.number_toString (i * 2 + 2) ++ ")".

Definition queryText (updates : list User) (editRoleAuthorized : string)
  : string :=
  "
        UPDATE users
        SET role = v.role::organization_role
        FROM (VALUES 
          " ++ Js.join ", " (Js.mapi (fun _ i => placeholders i) updates) ++ "
        ) AS v(username, role)
        WHERE users.username = v.username AND " ++ editRoleAuthorized ++ ";
      ".

Definition userFields (updates : list User) : list string :=
  flat_map (fun user => [username user; role user]) updates.

Definition updateRoles (updates : list User) (editRoleAuthorized : Fragment)
  : Sql :=
  {| sql_text := queryText updates (frag_text editRoleAuthorized);
     sql_meaning_of :=
       Modify (run_update_roles editRoleAuthorized (length updates)) |}.

(** Edits a set of users' roles, identifying the users by their username;
    requires the [edit_role] permission on all edited users. *)
Definition editUsersRoleByUsername (requestor : string) (updates : list User)
  : M unit :=
  pool_connect ;;
  let osoUser := {| oso_type := "User"; oso_id := requestor |} in
  try_catch_finally
    (editRoleAuthorized <-
       listLocal osoUser "edit_role" "User" "users.username" ;;
     client_query BEGIN [] ;;
     r <- client_query (updateRoles updates editRoleAuthorized)
            (userFields updates) ;;
     if negb (rowCount r =? length updates)%nat
     then
       client_query_detached ROLLBACK [] ;;
       throw (JsError "not permitted to edit role of all submitted users")
     else
       client_query_detached COMMIT [] ;;
       ret tt)
    (fun error =>
       console_error "Error in editUsersRoleByUsername:" error ;;
       throw error)
    client_release.

(** What the server answers to the [UPDATE] of
    [editUsersRoleByUsername] on the tables [d], and the effects of the
    action up to and including that statement, the latest first. *)
Definition update_answer (requestor : string) (updates : list User)
    (d : database) : pg_error + database * nat :=
  run_update_roles (editRoleAuthorized requestor) (length updates)
    (userFields updates) d.

Definition edit_effects (requestor : string) (updates : list User)
  : list event :=
  [ EvQuery (updateRoles updates (editRoleAuthorized requestor))
      (userFields updates);
    EvQuery BEGIN [];
    EvListLocal (mkOsoValue "User" requestor) "edit_role" "User"
      "users.username";
    EvConnect ].

Definition not_permitted_to_edit : exn :=
  JsError "not permitted to edit role of all submitted users".

End Actions.

Arguments queryText : simpl never.
Arguments usersWPermissionsText : simpl never.

(** ** The policy of [oso-policy.polar] over the facts of the users service *)

Module Polar.

(** [has_role(User, String, Organization)]:
    [SELECT users.username, users.role::TEXT, users.org FROM users]. *)
Definition has_role_fact (d : database) (user role_name organization : string)
  : bool :=
  existsb (fun x => (username x =? user) && (role x =? role_name)
                    && (org x =? organization)) (users d).

(** [resource Organization]: the roles are as stored, and
    ["member" if "admin"]. *)
Definition has_role (d : database) (user role_name organization : string)
  : bool :=
  has_role_fact d user role_name organization
  || ((role_name =? "member") && has_role_fact d user "admin" organization).

(** [resource Organization]: ["read" if "member"],
    ["create_user" if "admin"]. *)
Definition organization_permission (d : database)
    (user action organization : string) : bool :=
  if action =? "read" then has_role d user "member" organization
  else if action =? "create_user" then has_role d user "admin" organization
  else false.

(** [actor User]: ["read" if "member" on "parent"],
    ["edit_role" if "admin" on "parent"], ["delete" if "admin" on "parent"]. *)
Definition role_on_parent (action : string) : option string :=
  if action =? "read" then Some "member"
  else if action =? "edit_role" then Some "admin"
  else if action =? "delete" then Some "admin"
  else None.

(** [has_relation(User, parent, Organization)]:
    [SELECT username, org FROM users]. *)
Definition user_permission (d : database) (user action target : string)
  : bool :=
  match role_on_parent action with
  | Some role_name =>
      existsb (fun x => (username x =? target)
                        && has_role d user role_name (org x)) (users d)
  | None => false
  end.

Definition allowed (d : database) (user action : string) (resource : OsoValue)
  : bool :=
  if oso_type resource =? "User"
  then user_permission d user action (oso_id resource)
  else if oso_type resource =? "Organization"
  then organization_permission d user action (oso_id resource)
  else false.

(** An evaluator for this policy.  The text of a fragment stands for the
    evaluator's rendering of the rule over the fact queries. *)
Definition fragment (actor : OsoValue) (action resource_type column : string)
  : Fragment :=
  {| frag_text :=
       column ++ " IN (SELECT resource FROM " ++ resource_type
              ++ "_" ++ action ++ "_of_" ++ oso_id actor ++ ")";
     frag_holds := fun d v =>
       (oso_type actor =? "User")
       && allowed d (oso_id actor) action (mkOsoValue resource_type v) |}.

Definition error_message (e : exn) : string :=
  match e with
  | JsError message => message
  | PgError _ => "database error"
  end.

Definition imports : Imports :=
  {| oso_listLocal := fragment;
     authorizeUser := allowed;
     stringifyError := error_message |}.

End Polar.

(** ** A small installation *)

Definition alice : User := mkUser "alice" "acme" "member".
Definition bob : User := mkUser "bob" "acme" "admin".
Definition carol : User := mkUser "carol" "initech" "member".

Definition acme_db : database :=
  {| organizations := ["acme"; "initech"]; users := [bob; alice; carol] |}.

Definition fresh (d : database) : world :=
  {| db := d; txn := NoTxn; faults := []; trace := [] |}.

(** ** The connection pool module

    The start of [lib/db.ts]: the six settings read from the environment and
    the connection string made of them.  [process.env] maps a name to a
    string or to [undefined]; [typeof value !== "string"] holds of
    [undefined] only. *)

Definition getEnvVar (env : string -> option string) (key : string)
  : outcome string :=
  match env key with
  | Some value => Normal value
  | None =>
      Thrown (JsError ("Environment variable " ++ key
                       ++ " is not a string or is undefined"))
  end.

(** The module's top level, down to [connectionString]: the settings are
    read in this order and the first failure ends the evaluation. *)
Definition connectionString (env : string -> option string) : outcome string :=
  match getEnvVar env "DB_USER" with
  | Thrown e => Thrown e
  | Normal user =>
  match getEnvVar env "DB_PASS" with
  | Thrown e => Thrown e
  | Normal password =>
  match getEnvVar env "DB_NAME" with
  | Thrown e => Thrown e
  | Normal database =>
  match getEnvVar env "DB_HOST" with
  | Thrown e => Thrown e
  | Normal host =>
  match getEnvVar env "DB_PORT" with
  | Thrown e => Thrown e
  | Normal port =>
  match getEnvVar env "DB_SSL" with
  | Thrown e => Thrown e
  | Normal ssl =>
      Normal ("postgresql://" ++ user ++ ":" ++ password ++ "@" ++ host
              ++ ":" ++ port ++ "/" ++ database ++ "?sslmode=" ++ ssl)
  end end end end end end.

(** The settings in the order the module reads them. *)
Definition db_settings : list string :=
  ["DB_USER"; "DB_PASS"; "DB_NAME"; "DB_HOST"; "DB_PORT"; "DB_SSL"].

(** ** Reading worlds and chronicles, continued *)

Definition is_pool_event (ev : event) : bool :=
  match ev with
  | EvConnect | EvRelease => true
  | _ => false
  end.

(** The chronicle [after] continues [before] with one use of the pool: a
    connection taken first, released last, and none taken or released in
    between. *)
Definition scoped (before after : list event) : Prop :=
  exists middle,
    after = (EvRelease :: middle ++ EvConnect :: before)%list
    /\ Forall (fun ev => is_pool_event ev = false) middle.

(** Usernames are distinct in what the connection sees and in what is
    committed. *)
Definition world_pk (w : world) : Prop :=
  users_pk (db w) /\ users_pk (committed w).

(** A statement whose writes keep the usernames of [users] distinct. *)
Definition pk_safe (q : Sql) : Prop :=
  match sql_meaning_of q with
  | Modify run =>
      forall params d d' n,
        users_pk d -> run params d = inr (d', n) -> users_pk d'
  | _ => True
  end.

(** The row of the read query for a row of [users], given the two
    permission columns. *)
Definition readable_of (u : User) (may_edit may_delete : bool) : ReadableUser :=
  {| ru_username := username u;
     ru_org := org u;
     ru_role := role u;
     ru_editRole := may_edit;
     ru_deleteUser := may_delete |}.

(** ** Around the actions *)

(** [const client = await pool.connect()] stands before the [try] of every
    action, so nothing catches its rejection.  The actions above are what a
    call does once the pool has given a connection; [with_pool] puts the
    pool's answer in front: when the pool has no connection to give
    ([Some error]) the call is rejected with the pool's error and nothing
    else happens. *)
Definition with_pool {A : Type} (pool_error : option exn) (action : M A)
  : M A :=
  match pool_error with
  | Some error => throw error
  | None => action
  end.

(** The posted form as [formData.get] reads it: the value of a field, or
    [null] ([None]) when the form has no field of that name. *)
Definition PostedForm : Type := string -> option string.

(** [createUser] reads the fields [username], [organization] and [role] and
    casts each with [as string], unchecked.  [read_form] gives the three
    strings of a form that has all three fields; [FormData] stands for such
    forms only. *)
Definition read_form (form : PostedForm) : option FormData :=
  match form "username", form "organization", form "role" with
  | Some u, Some o, Some r =>
      Some {| fd_username := u; fd_organization := o; fd_role := r |}
  | _, _, _ => None
  end.

(** One requestor submitting batch after batch on the connection, each call
    starting in the world the call before left, no other call in between:
    the outcomes in order, and the world after the last. *)
Fixpoint editUsersRoleByUsername_each {I : Imports} (requestor : string)
    (batches : list (list User)) (w : world) : list (outcome unit) * world :=
  match batches with
  | [] => ([], w)
  | updates :: later =>
      let (r, w1) := editUsersRoleByUsername requestor updates w in
      let (rs, w2) := editUsersRoleByUsername_each requestor later w1 in
      (r :: rs, w2)
  end.

(** * Properties *)

(** Unfolds the plumbing of an action down to its queries. *)
Ltac run_action :=
  unfold bind, try_catch_finally, pool_connect, client_release, console_error,
    listLocal, authorize, client_query_detached, throw, ret, log; simpl.

(** ** Arrays *)

Lemma insert_by_username_perm (x : ReadableUser) (l : list ReadableUser) :
  Permutation (insert_by_username x l) (x :: l).
Proof.
  induction l as [|y t IH]; simpl.
  - apply Permutation_refl.
  - destruct (String.leb (ru_username x) (ru_username y)).
    + apply Permutation_refl.
    + eapply perm_trans; [apply perm_skip, IH | apply perm_swap].
Qed.

Lemma order_by_username_perm (l : list ReadableUser) :
  Permutation (order_by_username l) l.
Proof.
  induction l as [|x t IH]; simpl.
  - constructor.
  - eapply perm_trans; [apply insert_by_username_perm | now apply perm_skip].
Qed.

Lemma findIndex_from_spec {A : Type} (p : A -> bool) (l : list A) (i : Z) :
  (Js.findIndex_from p i l = (-1)%Z /\ forall x, In x l -> p x = false)
  \/ exists pre x post,
       l = (pre ++ x :: post)%list
       /\ (forall y, In y pre -> p y = false)
       /\ p x = true
       /\ Js.findIndex_from p i l = (i + Z.of_nat (length pre))%Z.
Proof.
  revert i; induction l as [|a t IH]; intro i; simpl.
  - left; split; [reflexivity | intros x []].
  - destruct (p a) eqn:Ea.
    + right; exists [], a, t; simpl.
      repeat split; [intros y [] | assumption | lia].
    + destruct (IH (i + 1)%Z) as [[E F] | (pre & x & post & El & Hpre & Hx & E)].
      * left; split; [assumption|].
        intros x [<- | Hin]; [assumption | now apply F].
      * right; exists (a :: pre), x, post; simpl.
        repeat split; [now rewrite El | | assumption | lia].
        intros y [<- | Hin]; [assumption | now apply Hpre].
Qed.

Lemma findIndex_spec {A : Type} (p : A -> bool) (l : list A) :
  (Js.findIndex p l = (-1)%Z /\ forall x, In x l -> p x = false)
  \/ exists pre x post,
       l = (pre ++ x :: post)%list
       /\ (forall y, In y pre -> p y = false)
       /\ p x = true
       /\ Js.findIndex p l = Z.of_nat (length pre).
Proof.
  unfold Js.findIndex.
  destruct (findIndex_from_spec p l 0) as [H | (pre & x & post & H)];
    [now left | right; exists pre, x, post].
  now rewrite Z.add_0_l in H.
Qed.

Lemma splice_one {A : Type} (pre post : list A) (x : A) :
  Js.splice (Z.of_nat (length pre)) 1 (pre ++ x :: post)%list
  = ([x], (pre ++ post)%list).
Proof.
  unfold Js.splice.
  assert (E : (Z.of_nat (length pre) <? 0)%Z = false) by (apply Z.ltb_ge; lia).
  rewrite E, Z.min_l by (rewrite length_app; simpl; lia).
  rewrite Nat2Z.id.
  rewrite skipn_app, skipn_all, Nat.sub_diag; simpl.
  rewrite firstn_app, firstn_all, Nat.sub_diag; simpl.
  rewrite skipn_app, skipn_all2 by lia.
  replace (length pre + 1 - length pre) with 1 by lia.
  now rewrite !app_nil_r.
Qed.

Lemma filter_keeps_keys_distinct {Row Key : Type} (key : Row -> Key)
    (keep : Row -> bool) (table : list Row) :
  NoDup (map key table) -> NoDup (map key (filter keep table)).
Proof.
  induction table as [|row rest IH]; simpl; intro Hnd; [constructor|].
  apply NoDup_cons_iff in Hnd as [Hfresh Hrest].
  destruct (keep row); simpl; [constructor|]; auto.
  intro Hin; apply Hfresh.
  apply in_map_iff in Hin as (other & <- & Hother).
  apply filter_In in Hother as [Hother _]; now apply in_map.
Qed.

(** ** The connection and the server *)

Lemma client_query_trace (q : Sql) (params : list string) (w : world) :
  trace (snd (client_query q params w)) = EvQuery q params :: trace w.
Proof.
  unfold client_query.
  destruct (if cancelled w then _ else _) as [[[e|r] d] t]; reflexivity.
Qed.

(** A cancelled statement, or any data statement in an aborted block, is
    answered with an error and changes no table. *)
Lemma client_query_refused (q : Sql) (params : list string) (w : world) :
  cancelled w = true
  \/ (txn_aborted w = true /\ sql_meaning_of q <> TxCommit
      /\ sql_meaning_of q <> TxRollback) ->
  exists c w',
    client_query q params w = (Thrown (PgError c), w')
    /\ db w' = db w /\ committed w' = committed w
    /\ txn_open w' = txn_open w.
Proof.
  unfold client_query, committed, txn_open, txn_aborted.
  intros [Hc | (Ha & Hq1 & Hq2)].
  - rewrite Hc; unfold failed.
    eexists _, _; split; [reflexivity|]; simpl.
    destruct (txn w); auto.
  - destruct (cancelled w); unfold failed.
    + eexists _, _; split; [reflexivity|]; simpl.
      destruct (txn w); auto.
    + destruct (txn w) as [|s|s]; try discriminate.
      destruct (sql_meaning_of q); try congruence;
        eexists _, _; (split; [reflexivity|]); simpl; auto.
Qed.

(** *** The primary key

    The statements keep the usernames of [users] distinct. *)

Lemma insert_user_keeps_pk (params : list string) (d d' : database)
    (n : nat) :
  users_pk d -> run_insert_user params d = inr (d', n) -> users_pk d'.
Proof.
  unfold users_pk, run_insert_user; intros Hpk H.
  destruct params as [|u [|o [|r [|? ?]]]]; try discriminate.
  destruct (negb (mem_string r organization_role)); [discriminate|].
  destruct (mem_string u (map username (users d))) eqn:Eu; [discriminate|].
  destruct (negb (mem_string o (organizations d))); [discriminate|].
  injection H as <- _; simpl.
  eapply Permutation_NoDup;
    [apply Permutation_map, Permutation_cons_append|]; simpl.
  constructor; [|assumption].
  intro Hin; unfold mem_string in Eu.
  assert (existsb (String.eqb u) (map username (users d)) = true);
    [|congruence].
  apply existsb_exists; exists u; split; [assumption | apply String.eqb_refl].
Qed.

Lemma delete_user_keeps_pk (params : list string) (d d' : database)
    (n : nat) :
  users_pk d -> run_delete_user params d = inr (d', n) -> users_pk d'.
Proof.
  unfold users_pk, run_delete_user; intros Hpk H.
  destruct params as [|u [|? ?]]; try discriminate.
  injection H as <- _; simpl.
  now apply filter_keeps_keys_distinct.
Qed.

Lemma update_roles_keeps_pk (cond : Fragment) (k : nat)
    (params : list string) (d d' : database) (n : nat) :
  users_pk d -> run_update_roles cond k params d = inr (d', n) -> users_pk d'.
Proof.
  unfold users_pk, run_update_roles; intros Hpk H.
  destruct (k =? 0)%nat; [discriminate|].
  destruct (negb _); [discriminate|].
  destruct (find _ _); [discriminate|].
  injection H as <- _; simpl.
  rewrite map_map.
  erewrite map_ext; [exact Hpk|].
  intro x; simpl; destruct (joined _ _ _ x); reflexivity.
Qed.

(** ** The read path *)

Lemma select_users_In (editC deleteC readC : Fragment) (d : database)
    (row : ReadableUser) :
  In row (select_users editC deleteC readC d) <->
  exists u, In u (users d)
            /\ frag_holds readC d (username u) = true
            /\ row = {| ru_username := username u;
                        ru_org := org u;
                        ru_role := role u;
                        ru_editRole := frag_holds editC d (username u);
                        ru_deleteUser := frag_holds deleteC d (username u) |}.
Proof.
  unfold select_users; split.
  - intro H.
    apply (Permutation_in _ (order_by_username_perm _)) in H.
    apply in_map_iff in H as (u & <- & Hu).
    apply filter_In in Hu as [Hu Hr]; eauto.
  - intros (u & Hu & Hr & ->).
    apply (Permutation_in _ (Permutation_sym (order_by_username_perm _))).
    apply in_map_iff; exists u; split; [reflexivity|].
    now apply filter_In.
Qed.

Lemma select_users_NoDup (editC deleteC readC : Fragment) (d : database) :
  users_pk d -> NoDup (map ru_username (select_users editC deleteC readC d)).
Proof.
  unfold users_pk, select_users; intro H.
  eapply Permutation_NoDup;
    [apply Permutation_map, Permutation_sym, order_by_username_perm|].
  rewrite map_map; simpl.
  now apply filter_keeps_keys_distinct.
Qed.

(** Taking the requestor's row out of rows with distinct usernames. *)
Lemma extract_requestor (requestor : string) (l : list ReadableUser) :
  NoDup (map ru_username l) ->
  In requestor (map ru_username l) ->
  exists pre me post,
    l = (pre ++ me :: post)%list
    /\ Js.findIndex (fun user => ru_username user =? requestor) l
       = Z.of_nat (length pre)
    /\ ru_username me = requestor
    /\ forall o, In o (pre ++ post)%list -> ru_username o <> requestor.
Proof.
  intros Hnd Hin.
  destruct (findIndex_spec (fun user => ru_username user =? requestor) l)
    as [[_ F] | (pre & me & post & El & Hpre & Hme & E)].
  - apply in_map_iff in Hin as (x & Ex & Hx).
    apply F in Hx; apply String.eqb_neq in Hx; contradiction.
  - exists pre, me, post; apply String.eqb_eq in Hme.
    repeat split; try assumption.
    intros o Ho Eo; subst l.
    rewrite map_app in Hnd; simpl in Hnd.
    apply NoDup_remove_2 in Hnd; apply Hnd.
    rewrite <- map_app, Hme, <- Eo; now apply in_map.
Qed.

Section ReadPath.

Context {I : Imports}.
Variable requestor : string.

(** The action when the server answers its query. *)
Lemma getReadable_answered (w : world) :
  cancelled w = false ->
  txn_aborted w = false ->
  getReadableUsersWithPermissions requestor w =
  let users := readable_rows requestor (db w) in
  let userIndex :=
    Js.findIndex (fun user => ru_username user =? requestor) users in
  let w1 := {| db := db w; txn := txn w; faults := tl (faults w);
               trace := (read_effects requestor ++ trace w)%list |} in
  if (userIndex =? -1)%Z
  then (Thrown (JsError ("user " ++ requestor ++ " not found")),
        log EvRelease
          (log (EvConsoleError "Error in getReadableUsersWithPermissions:"
                  (JsError ("user " ++ requestor ++ " not found"))) w1))
  else (Normal {| Readable.users := snd (Js.splice userIndex 1 users);
                  Readable.thisUser :=
                    hd_error (fst (Js.splice userIndex 1 users)) |},
        log EvRelease w1).
Proof.
  intros Hc Ha.
  unfold getReadableUsersWithPermissions; run_action.
  unfold client_query, cancelled, txn_aborted in *; simpl.
  rewrite Hc.
  destruct (txn w) eqn:Et; try discriminate; simpl;
    fold (readable_rows requestor (db w));
    destruct (Js.findIndex _ _ =? -1)%Z; simpl; try reflexivity;
    destruct (Js.splice _ 1 _); reflexivity.
Qed.

(** The action when the server refuses its query. *)
Lemma getReadable_refused (w : world) :
  cancelled w = true \/ txn_aborted w = true ->
  exists c, fst (getReadableUsersWithPermissions requestor w)
            = Thrown (PgError c).
Proof.
  intro H.
  unfold getReadableUsersWithPermissions; run_action.
  match goal with
  | |- context [client_query ?q ?ps ?w0] =>
      destruct (client_query_refused q ps w0) as (c & w' & E & _)
  end.
  - destruct H as [H | H]; [now left | right].
    repeat split; [exact H | discriminate | discriminate].
  - rewrite E; simpl; eauto.
Qed.

Lemma firstn_In {A : Type} (n : nat) (l : list A) (x : A) :
  In x (firstn n l) -> In x l.
Proof.
  intro H; rewrite <- (firstn_skipn n l); apply in_or_app; now left.
Qed.

Lemma skipn_In {A : Type} (n : nat) (l : list A) (x : A) :
  In x (skipn n l) -> In x l.
Proof.
  intro H; rewrite <- (firstn_skipn n l); apply in_or_app; now right.
Qed.

Lemma splice_fst_In {A : Type} (i : Z) (n : nat) (l : list A) (x : A) :
  In x (fst (Js.splice i n l)) -> In x l.
Proof.
  unfold Js.splice; simpl; intro H.
  eapply skipn_In, firstn_In, H.
Qed.

Lemma splice_snd_In {A : Type} (i : Z) (n : nat) (l : list A) (x : A) :
  In x (snd (Js.splice i n l)) -> In x l.
Proof.
  unfold Js.splice; simpl; intro H.
  apply in_app_or in H as [H | H];
    [eapply firstn_In, H | eapply skipn_In, H].
Qed.

(** What the action resolves to is made of rows of its query. *)
Lemma getReadable_rows (w w' : world) (res : Readable.t) :
  getReadableUsersWithPermissions requestor w = (Normal res, w') ->
  trace w' = (EvRelease :: read_effects requestor ++ trace w)%list
  /\ forall row,
       In row (Readable.users res) \/ Readable.thisUser res = Some row ->
       In row (readable_rows requestor (db w)).
Proof.
  intro H.
  destruct (cancelled w) eqn:Hc;
    [destruct (getReadable_refused w) as [c E]; [now left|];
     rewrite H in E; discriminate|].
  destruct (txn_aborted w) eqn:Ha;
    [destruct (getReadable_refused w) as [c E]; [now right|];
     rewrite H in E; discriminate|].
  rewrite (getReadable_answered w Hc Ha) in H; cbv zeta in H.
  destruct (Js.findIndex _ _ =? -1)%Z; [discriminate|].
  remember (Js.splice _ 1 _) as sp eqn:Esp.
  injection H as <- <-; split; [reflexivity|].
  intros row [Hrow | Hrow]; cbn [Readable.users Readable.thisUser] in Hrow;
    subst sp.
  - eapply splice_snd_In, Hrow.
  - destruct (fst (Js.splice _ 1 _)) as [|x t] eqn:E; [discriminate Hrow|].
    injection Hrow as ->.
    eapply splice_fst_In; rewrite E; now left.
Qed.

End ReadPath.

(** C3.  Every row [getReadableUsersWithPermissions] returns, in [users] or
    as [thisUser], passes the fragment compiled for the requestor's [read]
    on the row's own username, hence (the evaluator agreeing with itself) the
    point check of [read] on that user; its [editRole] and [deleteUser]
    columns are the [edit_role] and [delete] fragments evaluated on that same
    username; and the action sends exactly one query, after its three calls
    to the evaluator. *)
Theorem readable_rows_pass_read {I : Imports} {C : Coherent I}
    (requestor : string) (w w' : world) (res : Readable.t) :
  getReadableUsersWithPermissions requestor w = (Normal res, w') ->
  (forall row,
      In row (Readable.users res) \/ Readable.thisUser res = Some row ->
      frag_holds (readableUsersCond requestor) (db w) (ru_username row) = true
      /\ authorizeUser (db w) requestor "read"
           (mkOsoValue "User" (ru_username row)) = true
      /\ ru_editRole row
         = frag_holds (editableRoleUsersCond requestor) (db w)
             (ru_username row)
      /\ ru_deleteUser row
         = frag_holds (deleteUsersCond requestor) (db w) (ru_username row))
  /\ trace w' = (EvRelease :: read_effects requestor ++ trace w)%list
  /\ filter (fun ev => match ev with EvQuery _ _ => true | _ => false end)
       (EvRelease :: read_effects requestor)
     = [EvQuery (read_query requestor) []].
Proof.
  intro H.
  apply getReadable_rows in H as [Ht Hrows].
  split; [|split; [exact Ht | reflexivity]].
  intros row Hrow.
  apply Hrows, select_users_In in Hrow as (u & _ & Hr & ->); simpl.
  repeat split; [exact Hr|].
  now apply (listLocal_sound requestor "read" "username").
Qed.

(** C6.  For a requestor that has a row in [users] and passes its own [read]
    fragment (the table keyed by username, the query answered),
    [getReadableUsersWithPermissions] resolves; [thisUser] is the requestor's
    row, no row of [users] is the requestor's, and the two together are the
    rows of the query, so the requestor is returned exactly once. *)
Theorem requestor_is_thisUser_only {I : Imports} (requestor : string)
    (w : world) :
  users_pk (db w) ->
  cancelled w = false ->
  txn_aborted w = false ->
  In requestor (map username (users (db w))) ->
  frag_holds (readableUsersCond requestor) (db w) requestor = true ->
  exists me others,
    fst (getReadableUsersWithPermissions requestor w)
    = Normal {| Readable.users := others; Readable.thisUser := Some me |}
    /\ ru_username me = requestor
    /\ (forall o, In o others -> ru_username o <> requestor)
    /\ Permutation (me :: others) (readable_rows requestor (db w)).
Proof.
  intros Hpk Hc Ha Hin Hread.
  assert (Hrow : In requestor
                   (map ru_username (readable_rows requestor (db w)))).
  { apply in_map_iff in Hin as (u & <- & Hu).
    apply in_map_iff; eexists; split;
      [|apply select_users_In; exists u; repeat split; eassumption].
    reflexivity. }
  destruct (extract_requestor requestor (readable_rows requestor (db w)))
    as (pre & me & post & El & Ei & Eme & Hothers);
    [now apply select_users_NoDup | exact Hrow |].
  exists me, (pre ++ post)%list.
  rewrite (getReadable_answered requestor w Hc Ha); cbv zeta.
  rewrite Ei, El, splice_one.
  replace (Z.of_nat (length pre) =? -1)%Z with false
    by (symmetry; apply Z.eqb_neq; lia).
  repeat split; try assumption.
  apply Permutation_middle.
Qed.

(** C7.  When the query is answered and the requestor is not among its rows,
    [getReadableUsersWithPermissions] throws the [Error] it makes itself,
    [user <requestor> not found]; when the query is refused (cancelled, or
    sent in an aborted block) it throws the error of the driver.  The two are
    different kinds of exception. *)
Theorem absent_requestor_error {I : Imports} (requestor : string) (w : world) :
  (cancelled w = false ->
   txn_aborted w = false ->
   ~ In requestor (map ru_username (readable_rows requestor (db w))) ->
   fst (getReadableUsersWithPermissions requestor w)
   = Thrown (JsError ("user " ++ requestor ++ " not found")))
  /\ (cancelled w = true \/ txn_aborted w = true ->
      exists c, fst (getReadableUsersWithPermissions requestor w)
                = Thrown (PgError c)).
Proof.
  split; [|apply getReadable_refused].
  intros Hc Ha Habsent.
  rewrite (getReadable_answered requestor w Hc Ha); cbv zeta.
  destruct (findIndex_spec (fun user => ru_username user =? requestor)
              (readable_rows requestor (db w)))
    as [[E _] | (pre & me & post & El & _ & Hme & _)].
  - now rewrite E.
  - exfalso; apply Habsent.
    apply String.eqb_eq in Hme; rewrite El, <- Hme.
    apply in_map, in_or_app; right; now left.
Qed.

(** ** The single-entity write path *)

Section GuardedMutation.

Context {I : Imports}.

Lemma createUser_effects (requestor : string)
    (prev : option (Result string)) (formData : FormData) (w : world) :
  let resource := mkOsoValue "Organization" (fd_organization formData) in
  let auth := authorizeUser (db w) requestor "create_user" resource in
  let check := EvAuthorize requestor "create_user" resource auth in
  let params := [fd_username formData; fd_organization formData;
                 fd_role formData] in
  if auth
  then trace (snd (createUser requestor prev formData w))
       = EvRelease :: EvQuery insertUser params :: check :: EvConnect
           :: trace w
  else createUser requestor prev formData w
       = (Normal (Failure ("not permitted to create user in Organization "
                           ++ fd_organization formData)),
          {| db := db w; txn := txn w; faults := faults w;
             trace := EvRelease :: check :: EvConnect :: trace w |}).
Proof.
  cbv zeta; unfold createUser; run_action.
  destruct (authorizeUser _ _ _ _); simpl; [|reflexivity].
  match goal with
  | |- context [client_query ?q ?ps ?w0] =>
      pose proof (client_query_trace q ps w0) as T;
      destruct (client_query q ps w0) as [[r|e] w1]
  end; simpl in *; now rewrite T.
Qed.

Lemma deleteUser_effects (requestor target : string) (w : world) :
  let resource := mkOsoValue "User" target in
  let auth := authorizeUser (db w) requestor "delete" resource in
  let check := EvAuthorize requestor "delete" resource auth in
  if auth
  then (exists noise,
          trace (snd (deleteUser requestor target w))
          = (EvRelease :: noise
               ++ EvQuery deleteUserStmt [target] :: check :: EvConnect
               :: trace w)%list
          /\ (noise = []
              \/ exists e,
                   noise = [EvConsoleError "Error in deleteUser:" e]))
  else deleteUser requestor target w
       = (Thrown (JsError ("not permitted to delete User " ++ target)),
          {| db := db w; txn := txn w; faults := faults w;
             trace := EvRelease
               :: EvConsoleError "Error in deleteUser:"
                    (JsError ("not permitted to delete User " ++ target))
               :: check :: EvConnect :: trace w |}).
Proof.
  cbv zeta; unfold deleteUser; run_action.
  destruct (authorizeUser _ _ _ _); simpl; [|reflexivity].
  match goal with
  | |- context [client_query ?q ?ps ?w0] =>
      pose proof (client_query_trace q ps w0) as T;
      destruct (client_query q ps w0) as [[r|e] w1]
  end; simpl in *; rewrite T.
  - exists []; split; [reflexivity | now left].
  - eexists [_]; split; [reflexivity | right; eauto].
Qed.

End GuardedMutation.

(** C2.  In [createUser] and in [deleteUser] the point check is made before
    anything else is sent: in the effects of a call, every mutating
    statement has a granted check of this call's requestor, action and
    resource before it.  When the check answers [false] no mutating statement
    is among the effects, the tables are as they were, and the action ends
    with the error that names the action and the resource ([createUser]
    returns it as a failed [Result], [deleteUser] throws it). *)
Theorem mutations_are_guarded {I : Imports} (w : world) (requestor : string)
    (prev : option (Result string)) (formData : FormData) (target : string) :
  (let resource := mkOsoValue "Organization" (fd_organization formData) in
   let auth := authorizeUser (db w) requestor "create_user" resource in
   let '(r, w') := createUser requestor prev formData w in
   exists effects,
     trace w' = (effects ++ trace w)%list
     /\ In (EvAuthorize requestor "create_user" resource auth) effects
     /\ guarded_by (EvAuthorize requestor "create_user" resource true) effects
     /\ (auth = false ->
         Forall (fun ev => is_mutation ev = false) effects
         /\ r = Normal (Failure ("not permitted to create user in Organization "
                                 ++ fd_organization formData))
         /\ db w' = db w))
  /\
  (let resource := mkOsoValue "User" target in
   let auth := authorizeUser (db w) requestor "delete" resource in
   let '(r, w') := deleteUser requestor target w in
   exists effects,
     trace w' = (effects ++ trace w)%list
     /\ In (EvAuthorize requestor "delete" resource auth) effects
     /\ guarded_by (EvAuthorize requestor "delete" resource true) effects
     /\ (auth = false ->
         Forall (fun ev => is_mutation ev = false) effects
         /\ r = Thrown (JsError ("not permitted to delete User " ++ target))
         /\ db w' = db w)).
Proof.
  split; cbv zeta.
  - pose proof (createUser_effects requestor prev formData w) as H.
    cbv zeta in H.
    destruct (createUser requestor prev formData w) as [r w'].
    destruct (authorizeUser _ _ _ _).
    + simpl in H; eexists [_; _; _; _]; split; [exact H|].
      split; [simpl; auto|].
      split; [|discriminate].
      simpl; repeat split; auto; discriminate.
    + injection H as -> ->; eexists [_; _; _]; split; [reflexivity|].
      split; [simpl; auto|].
      split; [simpl; repeat split; discriminate|].
      intros _; repeat split; repeat constructor.
  - pose proof (deleteUser_effects requestor target w) as H.
    cbv zeta in H.
    destruct (deleteUser requestor target w) as [r w'].
    destruct (authorizeUser _ _ _ _).
    + simpl in H; destruct H as (noise & H & Hnoise).
      exists (EvRelease :: noise ++ [EvQuery deleteUserStmt [target];
                EvAuthorize requestor "delete" (mkOsoValue "User" target) true;
                EvConnect])%list.
      split; [rewrite H; simpl; rewrite <- app_assoc; reflexivity|].
      split; [right; apply in_or_app; right; simpl; auto|].
      split; [|discriminate].
      split; [discriminate|].
      destruct Hnoise as [-> | [e ->]]; simpl;
        repeat split; auto; discriminate.
    + injection H as -> ->; eexists [_; _; _; _]; split; [reflexivity|].
      split; [simpl; auto|].
      split; [simpl; repeat split; discriminate|].
      intros _; repeat split; repeat constructor.
Qed.

(** ** The batch write path *)

Lemma values_rows_userFields (updates : list User) :
  values_rows (userFields updates)
  = map (fun u => (username u, role u)) updates.
Proof.
  induction updates as [|u t IH]; simpl; [reflexivity | now rewrite IH].
Qed.

Lemma length_userFields (updates : list User) :
  length (userFields updates) = 2 * length updates.
Proof.
  induction updates as [|u t IH]; simpl; [reflexivity | rewrite IH; lia].
Qed.

Section BatchRun.

Context {I : Imports}.
Variables (requestor : string) (updates : list User).

(** The action on a connection with no open block and no cancellation. *)
Lemma editUsers_clean (w : world) :
  txn w = NoTxn ->
  faults w = [] ->
  editUsersRoleByUsername requestor updates w =
  let sent := (edit_effects requestor updates ++ trace w)%list in
  match update_answer requestor updates (db w) with
  | inl e =>
      (Thrown (PgError e),
       {| db := db w; txn := Aborted (db w); faults := [];
          trace := EvRelease
            :: EvConsoleError "Error in editUsersRoleByUsername:" (PgError e)
            :: sent |})
  | inr (d', k) =>
      if (k =? length updates)%nat
      then (Normal tt,
            {| db := d'; txn := NoTxn; faults := [];
               trace := EvRelease :: EvQuery COMMIT [] :: sent |})
      else (Thrown not_permitted_to_edit,
            {| db := db w; txn := NoTxn; faults := [];
               trace := EvRelease
                 :: EvConsoleError "Error in editUsersRoleByUsername:"
                      not_permitted_to_edit
                 :: EvQuery ROLLBACK [] :: sent |})
  end.
Proof.
  intros Ht Hf.
  unfold editUsersRoleByUsername; run_action.
  unfold client_query, cancelled; simpl; rewrite Ht, Hf; simpl.
  unfold update_answer, editRoleAuthorized.
  destruct (run_update_roles _ _ _ _) as [e | [d' k]]; simpl;
    [reflexivity|].
  destruct (k =? length updates)%nat; reflexivity.
Qed.

End BatchRun.

(** *** Counting the rows an update touches *)

Section Join.

Variables (cond : Fragment) (d : database) (vals : list (string * string)).

Let hit (x : User) : bool :=
  match joined cond d vals x with
  | [] => false
  | _ :: _ => true
  end.

Lemma joined_In (x : User) (v : string * string) :
  In v (joined cond d vals x) <->
  frag_holds cond d (username x) = true /\ In v vals /\ fst v = username x.
Proof.
  unfold joined; destruct (frag_holds cond d (username x)).
  - rewrite filter_In, String.eqb_eq; intuition congruence.
  - simpl; intuition discriminate.
Qed.

Lemma hit_iff (x : User) :
  hit x = true <->
  frag_holds cond d (username x) = true /\ In (username x) (map fst vals).
Proof.
  unfold hit; split.
  - destruct (joined cond d vals x) as [|v t] eqn:E; [discriminate|].
    intros _.
    assert (H : In v (joined cond d vals x)) by (rewrite E; now left).
    apply joined_In in H as (Hc & Hv & Ev).
    split; [assumption | rewrite <- Ev; now apply in_map].
  - intros [Hc Hin]; apply in_map_iff in Hin as (v & Ev & Hv).
    assert (H : In v (joined cond d vals x)) by now apply joined_In.
    destruct (joined cond d vals x); [destruct H | reflexivity].
Qed.

Let touched : list string := map username (filter hit (users d)).

Lemma touched_NoDup : users_pk d -> NoDup touched.
Proof. apply filter_keeps_keys_distinct. Qed.

Lemma touched_In (name : string) :
  In name touched <->
  In name (map username (users d))
  /\ frag_holds cond d name = true /\ In name (map fst vals).
Proof.
  unfold touched; rewrite in_map_iff; split.
  - intros (x & <- & Hx); apply filter_In in Hx as [Hx Hh].
    apply hit_iff in Hh as [Hc Hv]; auto using in_map.
  - intros (Hu & Hc & Hv); apply in_map_iff in Hu as (x & <- & Hx).
    exists x; split; [reflexivity|].
    apply filter_In; split; [assumption | now apply hit_iff].
Qed.

(** No more rows are touched than there are rows of values, and as many
    only if the values name distinct rows, all there, all passing. *)
Lemma touched_le :
  users_pk d -> length (filter hit (users d)) <= length vals.
Proof.
  intro Hpk.
  rewrite <- (length_map username (filter hit (users d))).
  rewrite <- (length_map fst vals).
  apply NoDup_incl_length; [now apply touched_NoDup|].
  intros name Hn; now apply touched_In in Hn.
Qed.

Lemma touched_all :
  users_pk d ->
  length vals <= length (filter hit (users d)) ->
  NoDup (map fst vals)
  /\ forall v, In v vals ->
       In (fst v) (map username (users d))
       /\ frag_holds cond d (fst v) = true.
Proof.
  intros Hpk Hlen.
  rewrite <- (length_map username (filter hit (users d))) in Hlen.
  rewrite <- (length_map fst vals) in Hlen.
  assert (Hincl : incl touched (map fst vals))
    by (intros name Hn; now apply touched_In in Hn).
  split.
  - eapply NoDup_incl_NoDup;
      [apply touched_NoDup, Hpk | exact Hlen | exact Hincl].
  - intros v Hv.
    assert (Hn : In (fst v) touched).
    { eapply NoDup_length_incl;
        [apply touched_NoDup, Hpk | exact Hlen | exact Hincl |].
      now apply in_map. }
    apply touched_In in Hn; tauto.
Qed.

Lemma touched_full :
  users_pk d ->
  NoDup (map fst vals) ->
  (forall v, In v vals ->
     In (fst v) (map username (users d))
     /\ frag_holds cond d (fst v) = true) ->
  length (filter hit (users d)) = length vals.
Proof.
  intros Hpk Hnd Hall.
  apply Nat.le_antisymm; [now apply touched_le|].
  rewrite <- (length_map username (filter hit (users d))).
  rewrite <- (length_map fst vals).
  apply NoDup_incl_length; [exact Hnd|].
  intros name Hn; apply touched_In.
  apply in_map_iff in Hn as (v & <- & Hv).
  destruct (Hall v Hv); auto using in_map.
Qed.

(** With valid role names everywhere no cast fails. *)
Lemma casts_pass :
  (forall v, In v vals -> mem_string (snd v) organization_role = true) ->
  find (fun v => negb (mem_string (snd v) organization_role))
       (flat_map (joined cond d vals) (users d)) = None.
Proof.
  intro Hvalid.
  destruct (find _ _) as [v|] eqn:E; [|reflexivity].
  apply find_some in E as [Hin Hbad].
  apply in_flat_map in Hin as (x & _ & Hv).
  apply joined_In in Hv as (_ & Hv & _).
  rewrite (Hvalid v Hv) in Hbad; discriminate.
Qed.

(** With distinct names, the row a user joins first is the row that names
    it. *)
Lemma joined_first (x : User) (v : string * string) :
  NoDup (map fst vals) ->
  In v vals ->
  fst v = username x ->
  frag_holds cond d (username x) = true ->
  exists rest, joined cond d vals x = v :: rest.
Proof.
  intros Hnd Hv Ev Hc.
  assert (H : In v (joined cond d vals x)) by now apply joined_In.
  destruct (joined cond d vals x) as [|v' rest] eqn:E; [destruct H|].
  exists rest; f_equal.
  assert (H' : In v' (joined cond d vals x)) by (rewrite E; now left).
  apply joined_In in H' as (_ & Hv' & Ev').
  clear - Hnd Hv Hv' Ev Ev'.
  induction vals as [|a t IH]; [destruct Hv|].
  simpl in Hnd; inversion Hnd as [|? ? Hn Ht]; subst.
  destruct Hv as [-> | Hv], Hv' as [-> | Hv']; auto.
  - exfalso; apply Hn; rewrite Ev, <- Ev'; now apply in_map.
  - exfalso; apply Hn; rewrite Ev', <- Ev; now apply in_map.
Qed.

Lemma joined_none (x : User) :
  ~ In (username x) (map fst vals) -> joined cond d vals x = [].
Proof.
  intro Hn.
  destruct (joined cond d vals x) as [|v t] eqn:E; [reflexivity|].
  assert (H : In v (joined cond d vals x)) by (rewrite E; now left).
  apply joined_In in H as (_ & Hv & Ev).
  exfalso; apply Hn; rewrite <- Ev; now apply in_map.
Qed.

End Join.

Section BatchAnswer.

Context {I : Imports}.
Variables (requestor : string) (updates : list User) (d : database).

Let cond := editRoleAuthorized requestor.
Let vals := map (fun u => (username u, role u)) updates.

Lemma update_answer_empty (d0 : database) :
  update_answer requestor [] d0 = inl syntax_error.
Proof. reflexivity. Qed.

Lemma update_answer_unfold :
  updates <> [] ->
  update_answer requestor updates d =
  match find (fun v => negb (mem_string (snd v) organization_role))
             (flat_map (joined cond d vals) (users d)) with
  | Some v => inl (invalid_text_representation (snd v))
  | None =>
      inr ({| organizations := organizations d;
              users := map (fun u => match joined cond d vals u with
                                     | [] => u
                                     | v :: _ => set_role u (snd v)
                                     end) (users d) |},
           length (filter (fun u => match joined cond d vals u with
                                    | [] => false
                                    | _ :: _ => true
                                    end) (users d)))
  end.
Proof.
  intro Hne.
  unfold update_answer, run_update_roles.
  rewrite length_userFields, Nat.eqb_refl, values_rows_userFields.
  destruct updates; [contradiction | reflexivity].
Qed.

Lemma vals_fst : map fst vals = map username updates.
Proof. unfold vals; rewrite map_map; reflexivity. Qed.

(** The count of an answered update is at most the number of updates, and
    reaches it only when the updates name distinct rows of the table that
    all pass the fragment. *)
Lemma update_answer_count (d' : database) (k : nat) :
  users_pk d ->
  update_answer requestor updates d = inr (d', k) ->
  k <= length updates
  /\ (k = length updates ->
      NoDup (map username updates)
      /\ forall u, In u updates ->
           In (username u) (map username (users d))
           /\ frag_holds cond d (username u) = true).
Proof.
  intros Hpk H.
  assert (Hne : updates <> []).
  { intro E; unfold update_answer in H; rewrite E in H; discriminate H. }
  rewrite update_answer_unfold in H by assumption.
  destruct (find _ _); [discriminate|].
  injection H as _ <-.
  pose proof (touched_le cond d vals Hpk) as Hle.
  cbv zeta in Hle; unfold vals at 2 in Hle; rewrite length_map in Hle.
  split; [exact Hle|].
  intro Ek.
  destruct (touched_all cond d vals Hpk) as [Hnd Hall].
  - cbv zeta; rewrite Ek; unfold vals; rewrite length_map; lia.
  - rewrite vals_fst in Hnd; split; [exact Hnd|].
    intros u Hu.
    apply (Hall (username u, role u)).
    unfold vals; apply in_map_iff; eauto.
Qed.

(** Updates with valid role names that name distinct rows of the table,
    all passing the fragment, are all applied. *)
Lemma update_answer_all :
  updates <> [] ->
  users_pk d ->
  NoDup (map username updates) ->
  (forall u, In u updates ->
     mem_string (role u) organization_role = true
     /\ In (username u) (map username (users d))
     /\ frag_holds cond d (username u) = true) ->
  exists d',
    update_answer requestor updates d = inr (d', length updates)
    /\ organizations d' = organizations d
    /\ map username (users d') = map username (users d)
    /\ (forall u, In u updates ->
          exists x, In x (users d) /\ username x = username u
                    /\ In (set_role x (role u)) (users d'))
    /\ (forall x, In x (users d) ->
          ~ In (username x) (map username updates) -> In x (users d')).
Proof.
  intros Hne Hpk Hnd Hall.
  rewrite update_answer_unfold by assumption.
  rewrite casts_pass.
  2:{ intros v Hv; apply in_map_iff in Hv as (u & <- & Hu).
      now apply Hall. }
  eexists; split; [f_equal; f_equal|].
  - pose proof (touched_full cond d vals Hpk) as Hfull.
    cbv zeta in Hfull; rewrite Hfull; [apply length_map | |].
    + now rewrite vals_fst.
    + intros v Hv; apply in_map_iff in Hv as (u & <- & Hu); simpl.
      destruct (Hall u Hu) as (_ & ? & ?); auto.
  - simpl; split; [reflexivity|].
    split; [|split].
    + rewrite map_map; apply map_ext; intro x.
      destruct (joined cond d vals x); reflexivity.
    + intros u Hu; destruct (Hall u Hu) as (_ & Hin & Hc).
      apply in_map_iff in Hin as (x & Ex & Hx).
      exists x; repeat split; try assumption.
      destruct (joined_first cond d vals x (username u, role u))
        as [rest E]; try (rewrite vals_fst || rewrite Ex); auto.
      { unfold vals; apply in_map_iff; eauto. }
      apply in_map_iff; exists x; now rewrite E.
    + intros x Hx Hn.
      apply in_map_iff; exists x; split; [|assumption].
      rewrite joined_none; [reflexivity | now rewrite vals_fst].
Qed.

End BatchAnswer.

(** C1.  On a connection with no open block and no cancellation, over a
    [users] table keyed by username, a batch of [N > 0] updates is all or
    nothing.  If the [UPDATE] is answered with a row count below [N], the
    action issues [ROLLBACK] before it releases the connection, throws
    [not permitted to edit role of all submitted users], and leaves the
    tables as they were.  If the updates carry role names of the enum and
    name [N] distinct rows of the table that all pass the requestor's
    [edit_role] fragment, the count is [N], the action issues [COMMIT] and
    returns, every named row has its new role, and no other row changes. *)
Theorem batch_update_all_or_nothing {I : Imports} (requestor : string)
    (updates : list User) (w : world) :
  updates <> [] ->
  users_pk (db w) ->
  txn w = NoTxn ->
  faults w = [] ->
  let '(r, w') := editUsersRoleByUsername requestor updates w in
  (forall d' k,
      update_answer requestor updates (db w) = inr (d', k) ->
      k < length updates ->
      r = Thrown not_permitted_to_edit
      /\ db w' = db w
      /\ txn w' = NoTxn
      /\ trace w'
         = (EvRelease
              :: EvConsoleError "Error in editUsersRoleByUsername:"
                   not_permitted_to_edit
              :: EvQuery ROLLBACK []
              :: edit_effects requestor updates ++ trace w)%list)
  /\ (NoDup (map username updates) ->
      (forall u, In u updates ->
         mem_string (role u) organization_role = true
         /\ In (username u) (map username (users (db w)))
         /\ frag_holds (editRoleAuthorized requestor) (db w) (username u)
            = true) ->
      r = Normal tt
      /\ update_answer requestor updates (db w)
         = inr (db w', length updates)
      /\ txn w' = NoTxn
      /\ trace w'
         = (EvRelease :: EvQuery COMMIT []
              :: edit_effects requestor updates ++ trace w)%list
      /\ (forall u, In u updates ->
            exists x, In x (users (db w)) /\ username x = username u
                      /\ In (set_role x (role u)) (users (db w')))
      /\ (forall x, In x (users (db w)) ->
            ~ In (username x) (map username updates) ->
            In x (users (db w')))
      /\ map username (users (db w')) = map username (users (db w))).
Proof.
  intros Hne Hpk Ht Hf.
  rewrite (editUsers_clean requestor updates w Ht Hf); cbv zeta.
  destruct (update_answer requestor updates (db w)) as [e | [d1 k1]] eqn:Ea.
  - split.
    + intros d' k E; discriminate E.
    + intros Hnd Hall.
      destruct (update_answer_all requestor updates (db w) Hne Hpk Hnd Hall)
        as (d' & E & _).
      rewrite E in Ea; discriminate Ea.
  - destruct (k1 =? length updates)%nat eqn:Ek.
    + apply Nat.eqb_eq in Ek; subst k1; split.
      * intros d' k E Hlt; injection E as _ <-; lia.
      * intros Hnd Hall.
        destruct (update_answer_all requestor updates (db w) Hne Hpk Hnd Hall)
          as (d' & E & _ & Hnames & Hnew & Hold).
        rewrite E in Ea; injection Ea as ->; simpl.
        repeat split; assumption.
    + apply Nat.eqb_neq in Ek; split.
      * intros d' k _ _; repeat split.
      * intros Hnd Hall.
        destruct (update_answer_all requestor updates (db w) Hne Hpk Hnd Hall)
          as (d' & E & _).
        rewrite E in Ea; injection Ea as _ <-; contradiction.
Qed.

(** C10.  If an update names a username that has no row in [users], or two
    updates name the same username, then (role names of the enum, the table
    keyed by username, a connection with no open block and no cancellation)
    the [UPDATE] is answered with a count strictly below the number of
    updates, whatever the fragment says of the rows that are there; the
    action rolls back, throws
    [not permitted to edit role of all submitted users] and leaves the tables
    as they were. *)
Theorem missing_or_repeated_target_is_refused {I : Imports}
    (requestor : string) (updates : list User) (w : world) :
  users_pk (db w) ->
  txn w = NoTxn ->
  faults w = [] ->
  (forall u, In u updates -> mem_string (role u) organization_role = true) ->
  (exists u, In u updates /\ ~ In (username u) (map username (users (db w))))
  \/ ~ NoDup (map username updates) ->
  exists d' k,
    update_answer requestor updates (db w) = inr (d', k)
    /\ k < length updates
    /\ editUsersRoleByUsername requestor updates w
       = (Thrown not_permitted_to_edit,
          {| db := db w; txn := NoTxn; faults := [];
             trace := (EvRelease
                         :: EvConsoleError "Error in editUsersRoleByUsername:"
                              not_permitted_to_edit
                         :: EvQuery ROLLBACK []
                         :: edit_effects requestor updates ++ trace w)%list |}).
Proof.
  intros Hpk Ht Hf Hvalid Hbad.
  assert (Hne : updates <> []).
  { intros ->; destruct Hbad as [(u & [] & _) | Hnd]; apply Hnd; constructor. }
  destruct (update_answer requestor updates (db w)) as [e | [d' k]] eqn:Ea.
  - rewrite update_answer_unfold in Ea by assumption.
    rewrite casts_pass in Ea; [discriminate Ea|].
    intros v Hv; apply in_map_iff in Hv as (u & <- & Hu); now apply Hvalid.
  - exists d', k; split; [reflexivity|].
    destruct (update_answer_count requestor updates (db w) d' k Hpk Ea)
      as [Hle Hfull].
    assert (Hlt : k < length updates).
    { destruct (Nat.eq_dec k (length updates)) as [E | E]; [|lia].
      destruct (Hfull E) as [Hnd Hall].
      destruct Hbad as [(u & Hu & Hn) | Hn]; [|contradiction].
      destruct (Hall u Hu); contradiction. }
    split; [exact Hlt|].
    rewrite (editUsers_clean requestor updates w Ht Hf); cbv zeta.
    rewrite Ea.
    replace (k =? length updates)%nat with false
      by (symmetry; apply Nat.eqb_neq; lia).
    reflexivity.
Qed.

(** C8.  For the empty list of updates [editUsersRoleByUsername] never
    returns: whatever the state of the connection it throws an error of the
    driver and commits nothing; on a connection with no open block and no
    cancellation the error is the syntax error the server answers the
    [UPDATE] with, its [VALUES] list being empty. *)
Theorem empty_batch_fails {I : Imports} (requestor : string) (w : world) :
  let '(r, w') := editUsersRoleByUsername requestor [] w in
  (exists c, r = Thrown (PgError c))
  /\ committed w' = committed w
  /\ (txn w = NoTxn -> faults w = [] -> r = Thrown (PgError syntax_error)).
Proof.
  unfold editUsersRoleByUsername; run_action.
  unfold client_query, cancelled, committed; simpl.
  destruct w as [d t f tr]; simpl.
  destruct t as [|s|s]; destruct f as [|[|] [|[|] f]]; simpl;
    (split; [eexists; reflexivity | split; [reflexivity|]]);
    intros Ht Hf; try discriminate; reflexivity.
Qed.

(** A statement that fails after [BEGIN] is not followed by a rollback: the
    connection is released with the block still open. *)
Lemma failed_update_no_rollback {I : Imports} (requestor : string)
    (updates : list User) (w : world) (e : pg_error) :
  txn w = NoTxn ->
  faults w = [] ->
  update_answer requestor updates (db w) = inl e ->
  editUsersRoleByUsername requestor updates w
  = (Thrown (PgError e),
     {| db := db w; txn := Aborted (db w); faults := [];
        trace := (EvRelease
                    :: EvConsoleError "Error in editUsersRoleByUsername:"
                         (PgError e)
                    :: edit_effects requestor updates ++ trace w)%list |}).
Proof.
  intros Ht Hf Ea.
  rewrite (editUsers_clean requestor updates w Ht Hf); cbv zeta.
  now rewrite Ea.
Qed.

(** ** Statement texts *)

Lemma mapi_from_index_only {A B : Type} (g : nat -> B) (l : list A) (i : nat) :
  Js.mapi_from i (fun _ j => g j) l = map g (seq i (length l)).
Proof.
  revert i; induction l as [|a t IH]; intro i; simpl;
    [reflexivity | now rewrite IH].
Qed.

Lemma queryText_count (updates updates' : list User) (cond : string) :
  length updates = length updates' ->
  queryText updates cond = queryText updates' cond.
Proof.
  intro E; unfold queryText, Js.mapi.
  now rewrite !mapi_from_index_only, E.
Qed.

(** Splits on the answer to the next query of the goal, keeping what the
    query adds to the chronicle. *)
Ltac step_query :=
  match goal with
  | |- context [client_query ?q ?ps ?w0] =>
      let T := fresh "T" in
      pose proof (client_query_trace q ps w0) as T;
      destruct (client_query q ps w0) as [[?r | ?e] ?w1];
      simpl in T |- *
  end.

Lemma editUsers_statements {I : Imports} (requestor : string)
    (updates : list User) (w : world) :
  exists effects,
    trace (snd (editUsersRoleByUsername requestor updates w))
    = (effects ++ trace w)%list
    /\ incl (statements effects)
         [("BEGIN", []); ("ROLLBACK", []); ("COMMIT", []);
          (queryText updates (frag_text (editRoleAuthorized requestor)),
           userFields updates)].
Proof.
  unfold editUsersRoleByUsername; run_action.
  step_query.
  2:{ eexists [_; _; _; _; _]; rewrite T; split; [reflexivity|].
      simpl; intros x [<- | []]; simpl; auto. }
  step_query.
  2:{ eexists [_; _; _; _; _; _]; rewrite T0, T; split; [reflexivity|].
      simpl; intros x [<- | [<- | []]]; simpl; auto. }
  destruct (negb _); simpl; step_query; rewrite ?T1, ?T0, ?T;
    first [ eexists [_; _; _; _; _; _]; split; [reflexivity|]
          | eexists [_; _; _; _; _; _; _]; split; [reflexivity|] ];
    simpl; intros x Hx; simpl in Hx; simpl; intuition (subst; auto).
Qed.

Example queryText_two_updates :
  queryText [alice; bob] "ok" = queryText [carol; mkUser "x" "y" "z"] "ok"
  /\ userFields [alice; bob] = ["alice"; "member"; "bob"; "admin"].
Proof. split; reflexivity. Qed.

(** C9.  Whatever the requestor, the form, the target or the updates, and
    whatever the state of the connection, [createUser] sends no statement but
    its [INSERT], [deleteUser] none but its [DELETE], and
    [editUsersRoleByUsername] none but [BEGIN], [ROLLBACK], [COMMIT] and its
    [UPDATE].  The texts of the [INSERT] and the [DELETE] are constants; the
    text of the [UPDATE] is made of the fragment compiled for the requestor
    and of placeholders, and is the same for any two lists of updates of the
    same length.  The usernames, organization and role names travel as the
    bound parameters. *)
Theorem statement_texts_ignore_values {I : Imports} :
  (forall requestor prev formData w,
      exists effects,
        trace (snd (createUser requestor prev formData w))
        = (effects ++ trace w)%list
        /\ incl (statements effects)
             [("INSERT INTO users (username, org, role) VALUES ($1, $2, $3::organization_role);",
               [fd_username formData; fd_organization formData;
                fd_role formData])])
  /\ (forall requestor target w,
        exists effects,
          trace (snd (deleteUser requestor target w))
          = (effects ++ trace w)%list
          /\ incl (statements effects)
               [("DELETE FROM users WHERE username = $1;", [target])])
  /\ (forall requestor updates w,
        exists effects,
          trace (snd (editUsersRoleByUsername requestor updates w))
          = (effects ++ trace w)%list
          /\ incl (statements effects)
               [("BEGIN", []); ("ROLLBACK", []); ("COMMIT", []);
                (queryText updates (frag_text (editRoleAuthorized requestor)),
                 userFields updates)])
  /\ (forall updates updates' cond,
        length updates = length updates' ->
        queryText updates cond = queryText updates' cond).
Proof.
  repeat split.
  - intros requestor prev formData w.
    pose proof (createUser_effects requestor prev formData w) as H.
    cbv zeta in H.
    destruct (authorizeUser _ _ _ _).
    + eexists [_; _; _; _]; split; [exact H|].
      intros x [<- | []]; now left.
    + rewrite H; eexists [_; _; _]; split; [reflexivity|].
      intros x [].
  - intros requestor target w.
    pose proof (deleteUser_effects requestor target w) as H.
    cbv zeta in H.
    destruct (authorizeUser _ _ _ _).
    + destruct H as (noise & H & Hnoise).
      exists (EvRelease :: noise ++ [EvQuery deleteUserStmt [target];
                EvAuthorize requestor "delete" (mkOsoValue "User" target) true;
                EvConnect])%list.
      split; [rewrite H; simpl; rewrite <- app_assoc; reflexivity|].
      destruct Hnoise as [-> | [e ->]]; simpl;
        intros x [<- | []]; now left.
    + rewrite H; eexists [_; _; _; _]; split; [reflexivity|].
      intros x [].
  - apply editUsers_statements.
  - intros; now apply queryText_count.
Qed.

(** ** The policy instance *)

Lemma polar_coherent : Coherent Polar.imports.
Proof.
  intros actor action column d u H; simpl in H |- *.
  unfold Polar.fragment in H; simpl in H; exact H.
Qed.

Lemma acme_db_pk : users_pk acme_db.
Proof.
  unfold users_pk; simpl.
  repeat constructor; simpl; intuition discriminate.
Qed.

(** ** The properties at the small installation *)

Lemma readable_rows_pass_read_witness :
  exists res w',
    getReadableUsersWithPermissions (I := Polar.imports) "bob" (fresh acme_db)
    = (Normal res, w')
    /\ length (Readable.users res) = 1
    /\ forall row,
         In row (Readable.users res) \/ Readable.thisUser res = Some row ->
         Polar.allowed acme_db "bob" "read"
           (mkOsoValue "User" (ru_username row)) = true.
Proof.
  eexists _, _; split; [vm_compute; reflexivity|].
  split; [reflexivity|].
  intros row Hrow.
  apply (proj1 (readable_rows_pass_read (C := polar_coherent)
                  "bob" (fresh acme_db) _ _ eq_refl) row Hrow).
Defined.

Lemma requestor_is_thisUser_only_witness :
  users_pk acme_db
  /\ exists me others,
       fst (getReadableUsersWithPermissions (I := Polar.imports) "bob"
              (fresh acme_db))
       = Normal {| Readable.users := others; Readable.thisUser := Some me |}
       /\ ru_username me = "bob"
       /\ (forall o, In o others -> ru_username o <> "bob")
       /\ Permutation (me :: others)
            (readable_rows (I := Polar.imports) "bob" acme_db).
Proof.
  split; [exact acme_db_pk|].
  apply (requestor_is_thisUser_only (I := Polar.imports) "bob"
           (fresh acme_db) acme_db_pk eq_refl eq_refl).
  - simpl; auto.
  - reflexivity.
Defined.

Lemma absent_requestor_error_witness :
  readable_rows (I := Polar.imports) "zed" acme_db = []
  /\ fst (getReadableUsersWithPermissions (I := Polar.imports) "zed"
            (fresh acme_db))
     = Thrown (JsError "user zed not found").
Proof.
  split; [reflexivity|].
  apply (proj1 (absent_requestor_error (I := Polar.imports) "zed"
                  (fresh acme_db)) eq_refl eq_refl).
  simpl; intros [].
Defined.

Lemma batch_update_all_or_nothing_witness :
  (fst (editUsersRoleByUsername (I := Polar.imports) "bob"
          [mkUser "alice" "acme" "admin"] (fresh acme_db)) = Normal tt
   /\ In (mkUser "alice" "acme" "admin")
        (users (db (snd (editUsersRoleByUsername (I := Polar.imports) "bob"
                           [mkUser "alice" "acme" "admin"]
                           (fresh acme_db))))))
  /\ (fst (editUsersRoleByUsername (I := Polar.imports) "alice"
             [mkUser "bob" "acme" "member"] (fresh acme_db))
      = Thrown not_permitted_to_edit
      /\ db (snd (editUsersRoleByUsername (I := Polar.imports) "alice"
                    [mkUser "bob" "acme" "member"] (fresh acme_db)))
         = acme_db).
Proof.
  split.
  - pose proof (batch_update_all_or_nothing (I := Polar.imports) "bob"
                  [mkUser "alice" "acme" "admin"] (fresh acme_db)
                  ltac:(discriminate) acme_db_pk eq_refl eq_refl) as H.
    destruct (editUsersRoleByUsername _ _ _) as [r w'].
    destruct H as [_ H].
    destruct H as (Hr & _ & _ & _ & Hnew & _).
    + repeat constructor; intros [].
    + intros u [<- | []]; repeat split; simpl; auto.
    + split; [exact Hr|].
      destruct (Hnew _ (or_introl eq_refl)) as (x & Hx & Ex & Hin).
      simpl in Hx; destruct Hx as [<- | [<- | [<- | []]]];
        try discriminate Ex; exact Hin.
  - pose proof (batch_update_all_or_nothing (I := Polar.imports) "alice"
                  [mkUser "bob" "acme" "member"] (fresh acme_db)
                  ltac:(discriminate) acme_db_pk eq_refl eq_refl) as H.
    destruct (editUsersRoleByUsername _ _ _) as [r w'].
    destruct H as [H _].
    destruct (H acme_db 0 eq_refl ltac:(simpl; lia)) as (Hr & Hd & _).
    split; assumption.
Defined.

Lemma missing_or_repeated_target_is_refused_witness :
  Polar.allowed acme_db "bob" "edit_role" (mkOsoValue "User" "alice") = true
  /\ fst (editUsersRoleByUsername (I := Polar.imports) "bob"
            [mkUser "alice" "acme" "admin"; mkUser "zed" "acme" "member"]
            (fresh acme_db))
     = Thrown not_permitted_to_edit
  /\ fst (editUsersRoleByUsername (I := Polar.imports) "bob"
            [mkUser "alice" "acme" "admin"; mkUser "alice" "acme" "admin"]
            (fresh acme_db))
     = Thrown not_permitted_to_edit.
Proof.
  split; [reflexivity|]; split.
  - destruct (missing_or_repeated_target_is_refused (I := Polar.imports)
                "bob"
                [mkUser "alice" "acme" "admin"; mkUser "zed" "acme" "member"]
                (fresh acme_db) acme_db_pk eq_refl eq_refl)
      as (d' & k & _ & _ & E).
    + intros u [<- | [<- | []]]; reflexivity.
    + left; eexists; split; [right; left; reflexivity|].
      simpl; intuition discriminate.
    + now rewrite E.
  - destruct (missing_or_repeated_target_is_refused (I := Polar.imports)
                "bob"
                [mkUser "alice" "acme" "admin"; mkUser "alice" "acme" "admin"]
                (fresh acme_db) acme_db_pk eq_refl eq_refl)
      as (d' & k & _ & _ & E).
    + intros u [<- | [<- | []]]; reflexivity.
    + right; intro H; inversion H as [|? ? Hn _]; apply Hn; now left.
    + now rewrite E.
Defined.

(** C4, the code at its failing input.  The policy grants [bob], an admin of
    [acme], [edit_role] on every user of [acme], [bob] included; and
    [editUsersRoleByUsername], called by [bob] with an update of [bob]'s own
    role, commits it: nothing in the action leaves the requestor out of the
    rows it updates. *)
Theorem self_role_edit_commits :
  Polar.allowed acme_db "bob" "edit_role" (mkOsoValue "User" "bob") = true
  /\ editUsersRoleByUsername (I := Polar.imports) "bob"
       [mkUser "bob" "acme" "member"] (fresh acme_db)
     = (Normal tt,
        {| db := {| organizations := ["acme"; "initech"];
                    users := [mkUser "bob" "acme" "member"; alice; carol] |};
           txn := NoTxn;
           faults := [];
           trace := EvRelease :: EvQuery COMMIT []
                      :: edit_effects (I := Polar.imports) "bob"
                           [mkUser "bob" "acme" "member"] |}).
Proof. split; reflexivity. Qed.

(** C5, the code at its failing input.  [bob] asks for the role [owner],
    which is not of the enum, for [alice]: the [UPDATE] fails on the cast
    after [BEGIN] was sent, the action logs and rethrows the error and
    releases the connection.  [BEGIN] and the [UPDATE] are the only
    statements it sent, no [ROLLBACK] among them, and the block is still
    open, aborted, when the connection goes back to the pool. *)
Theorem failed_update_leaves_block_open :
  editUsersRoleByUsername (I := Polar.imports) "bob"
    [mkUser "alice" "acme" "owner"] (fresh acme_db)
  = (Thrown (PgError (invalid_text_representation "owner")),
     {| db := acme_db;
        txn := Aborted acme_db;
        faults := [];
        trace := EvRelease
                   :: EvConsoleError "Error in editUsersRoleByUsername:"
                        (PgError (invalid_text_representation "owner"))
                   :: edit_effects (I := Polar.imports) "bob"
                        [mkUser "alice" "acme" "owner"] |})
  /\ map snd (statements (edit_effects (I := Polar.imports) "bob"
                            [mkUser "alice" "acme" "owner"]))
     = [["alice"; "owner"]; []]
  /\ txn_open (snd (editUsersRoleByUsername (I := Polar.imports) "bob"
                      [mkUser "alice" "acme" "owner"] (fresh acme_db)))
     = true.
Proof.
  split; [|split; reflexivity].
  apply (failed_update_no_rollback (I := Polar.imports) "bob"
           [mkUser "alice" "acme" "owner"] (fresh acme_db)
           (invalid_text_representation "owner") eq_refl eq_refl eq_refl).
Qed.

(** ** Where the batch properties need role names of the enum *)

(** C1, as stated, fails where a role name is not of the enum.  [bob] is
    granted [edit_role] on [alice], who has a row: the one target of the
    batch [alice -> owner] is authorized.  Yet the row is not updated and
    nothing is committed: the [UPDATE] fails on the cast, the call throws
    the driver's error, [alice] keeps her role and no [COMMIT] is among
    the statements sent. *)
Lemma batch_update_all_or_nothing_counterexample :
  frag_holds (editRoleAuthorized (I := Polar.imports) "bob") acme_db "alice"
  = true
  /\ map username [mkUser "alice" "acme" "owner"] = ["alice"]
  /\ In "alice" (map username (users acme_db))
  /\ fst (editUsersRoleByUsername (I := Polar.imports) "bob"
            [mkUser "alice" "acme" "owner"] (fresh acme_db))
     = Thrown (PgError (invalid_text_representation "owner"))
  /\ committed (snd (editUsersRoleByUsername (I := Polar.imports) "bob"
                       [mkUser "alice" "acme" "owner"] (fresh acme_db)))
     = acme_db
  /\ In alice (users acme_db)
  /\ existsb (String.eqb "COMMIT")
       (map fst
          (statements
             (trace (snd (editUsersRoleByUsername (I := Polar.imports) "bob"
                            [mkUser "alice" "acme" "owner"]
                            (fresh acme_db))))))
     = false.
Proof.
  repeat split; try reflexivity; simpl; auto.
Qed.

(** C10, as stated, fails where a role name is not of the enum.  The batch
    [alice -> admin; alice -> owner] names [alice] twice, and [bob] is
    granted [edit_role] on [alice].  The [UPDATE] is not answered with a
    count at all: it fails on the cast of [owner].  The call throws the
    driver's error, not
    [not permitted to edit role of all submitted users], and sends no
    [ROLLBACK]: the block is open when the connection is released. *)
Lemma missing_or_repeated_target_is_refused_counterexample :
  map username [mkUser "alice" "acme" "admin"; mkUser "alice" "acme" "owner"]
  = ["alice"; "alice"]
  /\ frag_holds (editRoleAuthorized (I := Polar.imports) "bob") acme_db
       "alice" = true
  /\ update_answer (I := Polar.imports) "bob"
       [mkUser "alice" "acme" "admin"; mkUser "alice" "acme" "owner"] acme_db
     = inl (invalid_text_representation "owner")
  /\ fst (editUsersRoleByUsername (I := Polar.imports) "bob"
            [mkUser "alice" "acme" "admin"; mkUser "alice" "acme" "owner"]
            (fresh acme_db))
     = Thrown (PgError (invalid_text_representation "owner"))
  /\ existsb (String.eqb "ROLLBACK")
       (map fst
          (statements
             (trace (snd (editUsersRoleByUsername (I := Polar.imports) "bob"
                            [mkUser "alice" "acme" "admin";
                             mkUser "alice" "acme" "owner"]
                            (fresh acme_db))))))
     = false
  /\ txn_open (snd (editUsersRoleByUsername (I := Polar.imports) "bob"
                      [mkUser "alice" "acme" "admin";
                       mkUser "alice" "acme" "owner"] (fresh acme_db)))
     = true.
Proof.
  repeat split; reflexivity.
Qed.

(** * Further properties *)

(** ** The connection pool module *)

(** X1.  The connection string is made exactly when all six settings are in
    the environment; when some are not, the module's evaluation throws, and
    the error names the first missing one in the order [DB_USER], [DB_PASS],
    [DB_NAME], [DB_HOST], [DB_PORT], [DB_SSL]. *)
Theorem connectionString_first_missing (env : string -> option string) :
  match find (fun key => match env key with
                         | None => true
                         | Some _ => false
                         end) db_settings with
  | Some key =>
      connectionString env
      = Thrown (JsError ("Environment variable " ++ key
                         ++ " is not a string or is undefined"))
  | None =>
      exists user password database host port ssl,
        env "DB_USER" = Some user /\ env "DB_PASS" = Some password
        /\ env "DB_NAME" = Some database /\ env "DB_HOST" = Some host
        /\ env "DB_PORT" = Some port /\ env "DB_SSL" = Some ssl
        /\ connectionString env
           = Normal ("postgresql://" ++ user ++ ":" ++ password ++ "@" ++ host
                     ++ ":" ++ port ++ "/" ++ database ++ "?sslmode=" ++ ssl)
  end.
Proof.
  unfold connectionString, getEnvVar, db_settings; cbn [find].
  destruct (env "DB_USER") as [user|]; [|reflexivity].
  destruct (env "DB_PASS") as [password|]; [|reflexivity].
  destruct (env "DB_NAME") as [database|]; [|reflexivity].
  destruct (env "DB_HOST") as [host|]; [|reflexivity].
  destruct (env "DB_PORT") as [port|]; [|reflexivity].
  destruct (env "DB_SSL") as [ssl|]; [|reflexivity].
  exists user, password, database, host, port, ssl; repeat split.
Qed.

(** ** Rows and their keys *)

Lemma unique_row (d : database) (x a : User) :
  users_pk d ->
  In x (users d) -> In a (users d) -> username x = username a -> x = a.
Proof.
  unfold users_pk; intros Hpk Hx Ha E.
  induction (users d) as [|y l IH]; [destruct Ha|].
  simpl in Hpk; apply NoDup_cons_iff in Hpk as [Hn Hl].
  destruct Hx as [-> | Hx], Ha as [-> | Ha]; auto.
  - exfalso; apply Hn; rewrite E; now apply in_map.
  - exfalso; apply Hn; rewrite <- E; now apply in_map.
Qed.

(** ** The policy *)

Section Policy.

Variable d : database.

Lemma has_role_fact_true (user role_name organization : string) :
  Polar.has_role_fact d user role_name organization = true <->
  exists x, In x (users d) /\ username x = user /\ role x = role_name
            /\ org x = organization.
Proof.
  unfold Polar.has_role_fact; rewrite existsb_exists.
  split; intros (x & Hx & H); exists x; (split; [exact Hx|]).
  - apply andb_true_iff in H as [H Ho]; apply andb_true_iff in H as [Hu Hr].
    now rewrite String.eqb_eq in *.
  - destruct H as (Hu & Hr & Ho).
    rewrite !andb_true_iff, !String.eqb_eq; auto.
Qed.

Lemma has_role_true (user role_name organization : string) :
  Polar.has_role d user role_name organization = true <->
  exists x, In x (users d) /\ username x = user /\ org x = organization
            /\ (role x = role_name
                \/ (role_name = "member" /\ role x = "admin")).
Proof.
  unfold Polar.has_role.
  rewrite orb_true_iff, andb_true_iff, String.eqb_eq, !has_role_fact_true.
  split.
  - intros [(x & Hx & Hu & Hr & Ho) | [Em (x & Hx & Hu & Hr & Ho)]];
      exists x; auto 6.
  - intros (x & Hx & Hu & Ho & [Hr | [Em Hr]]); [left | right; split; auto];
      exists x; auto.
Qed.

Lemma user_permission_true (user action target : string) :
  Polar.user_permission d user action target = true <->
  exists role_name t a,
    Polar.role_on_parent action = Some role_name
    /\ In t (users d) /\ username t = target
    /\ In a (users d) /\ username a = user /\ org a = org t
    /\ (role a = role_name \/ (role_name = "member" /\ role a = "admin")).
Proof.
  unfold Polar.user_permission.
  destruct (Polar.role_on_parent action) as [role_name|].
  - rewrite existsb_exists; split.
    + intros (t & Ht & H); apply andb_true_iff in H as [Et H].
      apply String.eqb_eq in Et; apply has_role_true in H as (a & Ha & H).
      exists role_name, t, a; tauto.
    + intros (r & t & a & Er & Ht & Et & Ha & Eu & Eo & Hr).
      injection Er as <-; exists t; split; [exact Ht|].
      apply andb_true_iff; split; [now apply String.eqb_eq|].
      apply has_role_true; exists a; auto.
  - split; [discriminate | intros (r & _ & _ & Er & _); discriminate].
Qed.

Lemma role_on_parent_cases (action role_name : string) :
  Polar.role_on_parent action = Some role_name ->
  (action = "read" /\ role_name = "member")
  \/ ((action = "edit_role" \/ action = "delete") /\ role_name = "admin").
Proof.
  unfold Polar.role_on_parent.
  destruct (action =? "read") eqn:E1;
    [apply String.eqb_eq in E1; intros [= <-]; auto|].
  destruct (action =? "edit_role") eqn:E2;
    [apply String.eqb_eq in E2; intros [= <-]; auto|].
  destruct (action =? "delete") eqn:E3;
    [apply String.eqb_eq in E3; intros [= <-]; auto | discriminate].
Qed.

End Policy.

(** X2.  The policy never reaches across organizations: whoever it grants a
    permission on a user has a row in [users] with the organization of that
    user's row, holding the role [member] or [admin] there, and [admin]
    for anything but [read]. *)
Theorem polar_same_organization (d : database) (actor action target : string) :
  Polar.allowed d actor action (mkOsoValue "User" target) = true ->
  exists a t,
    In a (users d) /\ In t (users d)
    /\ username a = actor /\ username t = target
    /\ org a = org t
    /\ (role a = "member" \/ role a = "admin")
    /\ (action = "read" \/ role a = "admin").
Proof.
  unfold Polar.allowed; cbn [oso_type oso_id String.eqb Ascii.eqb Bool.eqb].
  intro H; apply user_permission_true in H
    as (r & t & a & Er & Ht & Et & Ha & Eu & Eo & Hr).
  exists a, t; repeat split; try assumption.
  - apply role_on_parent_cases in Er as [[_ ->] | [_ ->]];
      destruct Hr as [Hr | [E Hr]]; auto; discriminate.
  - apply role_on_parent_cases in Er as [[-> _] | [_ ->]]; [now left|].
    destruct Hr as [Hr | [E Hr]]; auto; discriminate.
Qed.

Lemma polar_same_organization_witness :
  Polar.allowed acme_db "bob" "edit_role" (mkOsoValue "User" "alice") = true
  /\ exists a t,
       In a (users acme_db) /\ In t (users acme_db)
       /\ username a = "bob" /\ username t = "alice"
       /\ org a = org t
       /\ (role a = "member" \/ role a = "admin")
       /\ ("edit_role" = "read" \/ role a = "admin").
Proof.
  split; [reflexivity|].
  apply (polar_same_organization acme_db "bob" "edit_role" "alice" eq_refl).
Defined.

(** X3.  In the policy the permissions of an admin contain those of a
    member: on users [delete] is granted exactly when [edit_role] is, and
    whoever has [edit_role] on a user has [read] on it; on organizations
    whoever has [create_user] has [read]. *)
Theorem polar_admin_permissions_imply_member (d : database)
    (actor target organization : string) :
  Polar.allowed d actor "delete" (mkOsoValue "User" target)
  = Polar.allowed d actor "edit_role" (mkOsoValue "User" target)
  /\ (Polar.allowed d actor "edit_role" (mkOsoValue "User" target) = true
      -> Polar.allowed d actor "read" (mkOsoValue "User" target) = true)
  /\ (Polar.allowed d actor "create_user"
        (mkOsoValue "Organization" organization) = true
      -> Polar.allowed d actor "read"
           (mkOsoValue "Organization" organization) = true).
Proof.
  split; [reflexivity | split].
  - unfold Polar.allowed; cbn [oso_type oso_id String.eqb Ascii.eqb Bool.eqb].
    intro H; apply user_permission_true in H
      as (r & t & a & Er & Ht & Et & Ha & Eu & Eo & Hr).
    injection Er as <-.
    apply user_permission_true; exists "member", t, a.
    repeat split; try assumption.
    destruct Hr as [Hr | [E _]]; [auto | discriminate].
  - unfold Polar.allowed, Polar.organization_permission;
      cbn [oso_type oso_id String.eqb Ascii.eqb Bool.eqb].
    intro H; apply has_role_true in H as (x & Hx & Hu & Ho & Hr).
    apply has_role_true; exists x; repeat split; try assumption.
    destruct Hr as [Hr | [E _]]; [auto | discriminate].
Qed.

(** X4.  With usernames distinct, a user whose role is not [admin] is
    granted neither [edit_role] nor [delete] on any user, nor [create_user]
    on any organization. *)
Theorem polar_only_admins_administrate (d : database) (a : User)
    (target organization : string) :
  users_pk d ->
  In a (users d) ->
  role a <> "admin" ->
  Polar.allowed d (username a) "edit_role" (mkOsoValue "User" target) = false
  /\ Polar.allowed d (username a) "delete" (mkOsoValue "User" target) = false
  /\ Polar.allowed d (username a) "create_user"
       (mkOsoValue "Organization" organization) = false.
Proof.
  intros Hpk Ha Hrole.
  assert (Hsame : forall x, In x (users d) -> username x = username a ->
                            x = a)
    by (intros x Hx E; now apply (unique_row d)).
  assert (Hno : forall action,
             action = "edit_role" \/ action = "delete" ->
             Polar.allowed d (username a) action (mkOsoValue "User" target)
             = false).
  { intros action Haction.
    destruct (Polar.allowed d (username a) action (mkOsoValue "User" target))
      eqn:E; [|reflexivity].
    unfold Polar.allowed in E;
      cbn [oso_type oso_id String.eqb Ascii.eqb Bool.eqb] in E.
    apply user_permission_true in E
      as (r & t & x & Er & _ & _ & Hx & Eu & _ & Hr).
    apply role_on_parent_cases in Er as [[-> _] | [_ ->]];
      [destruct Haction; discriminate|].
    destruct Hr as [Hr | [E _]]; [|discriminate].
    rewrite (Hsame x Hx Eu) in Hr; contradiction. }
  split; [apply Hno; now left | split; [apply Hno; now right|]].
  unfold Polar.allowed, Polar.organization_permission;
    cbn [oso_type oso_id String.eqb Ascii.eqb Bool.eqb].
  destruct (Polar.has_role d (username a) "admin" organization) eqn:E;
    [|reflexivity].
  apply has_role_true in E as (x & Hx & Eu & _ & [Hr | [E _]]);
    [|discriminate].
  rewrite (Hsame x Hx Eu) in Hr; contradiction.
Qed.

Lemma polar_only_admins_administrate_witness :
  Polar.allowed acme_db "alice" "edit_role" (mkOsoValue "User" "bob") = false
  /\ Polar.allowed acme_db "alice" "delete" (mkOsoValue "User" "bob") = false
  /\ Polar.allowed acme_db "alice" "create_user"
       (mkOsoValue "Organization" "acme") = false.
Proof.
  apply (polar_only_admins_administrate acme_db alice "bob" "acme" acme_db_pk).
  - simpl; auto.
  - discriminate.
Defined.

(** X5.  Every user whose role is one of the policy's two roles is granted
    [read] on itself. *)
Theorem polar_reads_itself (d : database) (a : User) :
  In a (users d) ->
  role a = "member" \/ role a = "admin" ->
  Polar.allowed d (username a) "read" (mkOsoValue "User" (username a)) = true.
Proof.
  intros Ha Hrole.
  unfold Polar.allowed; cbn [oso_type oso_id String.eqb Ascii.eqb Bool.eqb].
  apply user_permission_true; exists "member", a, a.
  repeat split; try assumption.
  destruct Hrole; auto.
Qed.

Lemma polar_reads_itself_witness :
  Polar.allowed acme_db "carol" "read" (mkOsoValue "User" "carol") = true.
Proof.
  apply (polar_reads_itself acme_db carol).
  - simpl; auto.
  - now left.
Defined.

(** ** The connection is given back *)

(** Closes a goal [scoped before after] once [after] is spelled out. *)
Ltac solve_scoped :=
  unfold scoped;
  first [ exists []; split; [reflexivity|]
        | eexists [_]; split; [reflexivity|]
        | eexists [_; _]; split; [reflexivity|]
        | eexists [_; _; _]; split; [reflexivity|]
        | eexists [_; _; _; _]; split; [reflexivity|]
        | eexists [_; _; _; _; _]; split; [reflexivity|]
        | eexists [_; _; _; _; _; _]; split; [reflexivity|] ];
  repeat constructor.

Lemma getReadable_scoped {I : Imports} (requestor : string) (w : world) :
  scoped (trace w) (trace (snd (getReadableUsersWithPermissions requestor w))).
Proof.
  unfold getReadableUsersWithPermissions; run_action.
  step_query; [|rewrite T; solve_scoped].
  destruct (Js.findIndex _ _ =? -1)%Z; simpl; rewrite T; solve_scoped.
Qed.

Lemma createUser_scoped {I : Imports} (requestor : string)
    (prev : option (Result string)) (formData : FormData) (w : world) :
  scoped (trace w) (trace (snd (createUser requestor prev formData w))).
Proof.
  pose proof (createUser_effects requestor prev formData w) as H.
  cbv zeta in H.
  destruct (authorizeUser _ _ _ _); rewrite H; solve_scoped.
Qed.

Lemma deleteUser_scoped {I : Imports} (requestor target : string)
    (w : world) :
  scoped (trace w) (trace (snd (deleteUser requestor target w))).
Proof.
  pose proof (deleteUser_effects requestor target w) as H.
  cbv zeta in H.
  destruct (authorizeUser _ _ _ _).
  - destruct H as (noise & -> & [-> | [e ->]]); solve_scoped.
  - rewrite H; solve_scoped.
Qed.

Lemma editUsers_scoped {I : Imports} (requestor : string)
    (updates : list User) (w : world) :
  scoped (trace w) (trace (snd (editUsersRoleByUsername requestor updates w))).
Proof.
  unfold editUsersRoleByUsername; run_action.
  step_query; [|rewrite T; solve_scoped].
  step_query; [|rewrite T0, T; solve_scoped].
  destruct (negb _); simpl; step_query; rewrite ?T1, ?T0, ?T; solve_scoped.
Qed.

(** X6.  Each of the four actions, whatever the state of the connection and
    however it ends (returning, or throwing its own error or the driver's),
    takes one connection from the pool as its first effect and releases it
    as its last, and takes or releases none in between. *)
Theorem connection_always_released {I : Imports} (w : world)
    (requestor target : string) (prev : option (Result string))
    (formData : FormData) (updates : list User) :
  scoped (trace w) (trace (snd (getReadableUsersWithPermissions requestor w)))
  /\ scoped (trace w) (trace (snd (createUser requestor prev formData w)))
  /\ scoped (trace w) (trace (snd (deleteUser requestor target w)))
  /\ scoped (trace w)
       (trace (snd (editUsersRoleByUsername requestor updates w))).
Proof.
  repeat split.
  - apply getReadable_scoped.
  - apply createUser_scoped.
  - apply deleteUser_scoped.
  - apply editUsers_scoped.
Qed.

(** ** The read path, continued *)

Section ReadPathMore.

Context {I : Imports}.
Variable requestor : string.

(** What a returning call is made of: the rows of the query, one row of
    the requestor's taken out where it stood. *)
Lemma getReadable_returned (w w' : world) (res : Readable.t) :
  getReadableUsersWithPermissions requestor w = (Normal res, w') ->
  exists before me after,
    readable_rows requestor (db w) = (before ++ me :: after)%list
    /\ res = {| Readable.users := (before ++ after)%list;
                Readable.thisUser := Some me |}
    /\ ru_username me = requestor
    /\ (forall y, In y before -> ru_username y <> requestor)
    /\ db w' = db w.
Proof.
  intro H.
  destruct (cancelled w) eqn:Hc;
    [destruct (getReadable_refused requestor w) as [c E]; [now left|];
     rewrite H in E; discriminate|].
  destruct (txn_aborted w) eqn:Ha;
    [destruct (getReadable_refused requestor w) as [c E]; [now right|];
     rewrite H in E; discriminate|].
  rewrite (getReadable_answered requestor w Hc Ha) in H; cbv zeta in H.
  destruct (findIndex_spec (fun user => ru_username user =? requestor)
              (readable_rows requestor (db w)))
    as [[E _] | (before & me & after & El & Hbefore & Hme & E)].
  - rewrite E in H; discriminate.
  - rewrite E, El, splice_one in H.
    replace (Z.of_nat (length before) =? -1)%Z with false in H
      by (symmetry; apply Z.eqb_neq; lia).
    injection H as <- <-.
    exists before, me, after.
    split; [exact El|]; split; [reflexivity|].
    split; [now apply String.eqb_eq|]; split; [|reflexivity].
    intros y Hy; apply String.eqb_neq; now apply Hbefore.
Qed.

(** A call returns when its query is answered and has a row of the
    requestor's. *)
Lemma getReadable_returns (w : world) :
  cancelled w = false ->
  txn_aborted w = false ->
  In requestor (map ru_username (readable_rows requestor (db w))) ->
  exists res w',
    getReadableUsersWithPermissions requestor w = (Normal res, w').
Proof.
  intros Hc Ha Hin.
  rewrite (getReadable_answered requestor w Hc Ha); cbv zeta.
  destruct (findIndex_spec (fun user => ru_username user =? requestor)
              (readable_rows requestor (db w)))
    as [[_ F] | (before & me & after & _ & _ & _ & E)].
  - apply in_map_iff in Hin as (x & Ex & Hx).
    apply F in Hx; apply String.eqb_neq in Hx; contradiction.
  - rewrite E.
    replace (Z.of_nat (length before) =? -1)%Z with false
      by (symmetry; apply Z.eqb_neq; lia).
    eauto.
Qed.

End ReadPathMore.

(** X7.  [getReadableUsersWithPermissions] only reads: whatever the state
    of the connection and however the call ends, the tables the connection
    sees and the committed tables are as before, and no mutating statement
    is among the effects of the call. *)
Theorem getReadable_reads_only {I : Imports} (requestor : string) (w : world) :
  db (snd (getReadableUsersWithPermissions requestor w)) = db w
  /\ committed (snd (getReadableUsersWithPermissions requestor w))
     = committed w
  /\ exists effects,
       trace (snd (getReadableUsersWithPermissions requestor w))
       = (effects ++ trace w)%list
       /\ Forall (fun ev => is_mutation ev = false) effects.
Proof.
  unfold getReadableUsersWithPermissions; run_action.
  unfold client_query, cancelled, committed; simpl.
  destruct w as [d t f tr]; simpl.
  destruct t as [|s|s]; destruct f as [|[|] f]; simpl;
    try destruct (Js.findIndex _ _ =? -1)%Z; simpl;
    (split; [reflexivity | split; [reflexivity|]]);
    first [ eexists [_; _; _; _; _; _]; split; [reflexivity|]
          | eexists [_; _; _; _; _; _; _]; split; [reflexivity|] ];
    repeat constructor.
Qed.

(** ** The read path under the policy *)

Lemma polar_allowed_on_user (d : database) (a u : User) (action : string) :
  users_pk d ->
  In a (users d) ->
  In u (users d) ->
  Polar.allowed d (username a) action (mkOsoValue "User" (username u)) = true
  <-> exists role_name,
        Polar.role_on_parent action = Some role_name
        /\ org a = org u
        /\ (role a = role_name \/ (role_name = "member" /\ role a = "admin")).
Proof.
  intros Hpk Ha Hu.
  unfold Polar.allowed; cbn [oso_type oso_id String.eqb Ascii.eqb Bool.eqb].
  rewrite user_permission_true; split.
  - intros (r & t & a' & Er & Ht & Et & Ha' & Ea & Eo & Hr).
    rewrite (unique_row d t u Hpk Ht Hu Et) in *.
    rewrite (unique_row d a' a Hpk Ha' Ha Ea) in *.
    exists r; auto.
  - intros (r & Er & Eo & Hr); exists r, u, a; auto 10.
Qed.

Lemma polar_read_on_user (d : database) (a u : User) :
  users_pk d -> In a (users d) -> In u (users d) ->
  role a = "member" \/ role a = "admin" ->
  Polar.allowed d (username a) "read" (mkOsoValue "User" (username u)) = true
  <-> org u = org a.
Proof.
  intros Hpk Ha Hu Hrole.
  rewrite (polar_allowed_on_user d a u "read" Hpk Ha Hu); split.
  - intros (r & _ & Eo & _); now symmetry.
  - intro Eo; exists "member"; split; [reflexivity|].
    split; [now symmetry|]; destruct Hrole; auto.
Qed.

Lemma polar_admin_on_user (d : database) (a u : User) (action : string) :
  users_pk d -> In a (users d) -> In u (users d) ->
  org u = org a ->
  action = "edit_role" \/ action = "delete" ->
  Polar.allowed d (username a) action (mkOsoValue "User" (username u))
  = (role a =? "admin").
Proof.
  intros Hpk Ha Hu Eo Haction.
  destruct (role a =? "admin") eqn:Er.
  - apply String.eqb_eq in Er.
    apply (polar_allowed_on_user d a u action Hpk Ha Hu).
    exists "admin"; split; [destruct Haction; subst; reflexivity|].
    split; [now symmetry | now left].
  - apply String.eqb_neq in Er.
    destruct (Polar.allowed _ _ _ _) eqn:E; [|reflexivity].
    apply (polar_allowed_on_user d a u action Hpk Ha Hu) in E
      as (r & Hr & _ & Hrole).
    apply role_on_parent_cases in Hr as [[-> _] | [_ ->]];
      [destruct Haction; discriminate|].
    destruct Hrole as [Hrole | [E _]]; [contradiction | discriminate].
Qed.

(** The rows of the read query under the policy: the users of the
    requestor's organization, each with both permission columns saying
    whether the requestor is an admin. *)
Lemma polar_readable_rows (d : database) (a : User) (row : ReadableUser) :
  users_pk d ->
  In a (users d) ->
  role a = "member" \/ role a = "admin" ->
  In row (readable_rows (I := Polar.imports) (username a) d) <->
  exists u, In u (users d) /\ org u = org a
            /\ row = readable_of u (role a =? "admin") (role a =? "admin").
Proof.
  intros Hpk Ha Hrole.
  unfold readable_rows; rewrite select_users_In.
  unfold readableUsersCond, editableRoleUsersCond, deleteUsersCond;
    cbn [oso_listLocal Polar.imports Polar.fragment frag_holds oso_type oso_id
         String.eqb Ascii.eqb Bool.eqb andb].
  split.
  - intros (u & Hu & Hr & ->).
    apply (polar_read_on_user d a u Hpk Ha Hu Hrole) in Hr.
    exists u; split; [exact Hu|]; split; [exact Hr|].
    unfold readable_of;
      rewrite !(polar_admin_on_user d a u _ Hpk Ha Hu Hr) by auto.
    reflexivity.
  - intros (u & Hu & Eo & ->).
    exists u; split; [exact Hu|].
    split; [now apply (polar_read_on_user d a u Hpk Ha Hu Hrole)|].
    unfold readable_of;
      rewrite !(polar_admin_on_user d a u _ Hpk Ha Hu Eo) by auto.
    reflexivity.
Qed.

(** X9.  Under the policy, a requestor that has a row in [users] with one
    of the two roles always gets an answer (the query answered, usernames
    distinct): [thisUser] is its own row, and [users] are exactly the other
    users of its organization; on every row both permission columns say
    whether the requestor is an admin. *)
Theorem polar_readable_is_own_organization (a : User) (w : world) :
  users_pk (db w) ->
  cancelled w = false ->
  txn_aborted w = false ->
  In a (users (db w)) ->
  role a = "member" \/ role a = "admin" ->
  exists others w',
    getReadableUsersWithPermissions (I := Polar.imports) (username a) w
    = (Normal {| Readable.users := others;
                 Readable.thisUser :=
                   Some (readable_of a (role a =? "admin")
                           (role a =? "admin")) |}, w')
    /\ forall row,
         In row others <->
         exists u, In u (users (db w)) /\ org u = org a
                   /\ username u <> username a
                   /\ row = readable_of u (role a =? "admin")
                              (role a =? "admin").
Proof.
  intros Hpk Hc Ha Hin Hrole.
  pose proof (polar_readable_rows (db w) a) as Hrows.
  destruct (getReadable_returns (I := Polar.imports) (username a) w Hc Ha)
    as (res & w' & Hrun).
  { apply in_map_iff; eexists; split;
      [|apply Hrows; auto; exists a; repeat split; auto]; reflexivity. }
  pose proof Hrun as Hres.
  apply getReadable_returned in Hres
    as (before & me & after & El & -> & Eme & _ & _).
  assert (Hnd : NoDup (map ru_username
                         (readable_rows (I := Polar.imports) (username a)
                            (db w))))
    by now apply select_users_NoDup.
  rewrite El, map_app in Hnd; simpl in Hnd.
  apply NoDup_remove_2 in Hnd; rewrite <- map_app in Hnd.
  assert (Hme : me = readable_of a (role a =? "admin") (role a =? "admin")).
  { assert (H : In me (readable_rows (I := Polar.imports) (username a)
                         (db w)))
      by (rewrite El; apply in_or_app; right; now left).
    apply Hrows in H as (u & Hu & _ & ->); auto.
    simpl in Eme; now rewrite (unique_row (db w) u a Hpk Hu Hin Eme). }
  exists (before ++ after)%list, w'; split; [now rewrite Hrun, Hme|].
  intro row; split.
  - intro Hrow.
    assert (H : In row (readable_rows (I := Polar.imports) (username a)
                          (db w))).
    { rewrite El; apply in_app_or in Hrow as [Hrow | Hrow];
        apply in_or_app; [now left | right; now right]. }
    apply Hrows in H as (u & Hu & Eo & ->); auto.
    exists u; repeat split; try assumption.
    intro E; apply Hnd; rewrite Eme, <- E.
    now apply (in_map ru_username) in Hrow.
  - intros (u & Hu & Eo & Hne & ->).
    assert (H : In (readable_of u (role a =? "admin") (role a =? "admin"))
                  (readable_rows (I := Polar.imports) (username a) (db w)))
      by (apply Hrows; eauto).
    rewrite El in H; apply in_app_or in H as [H | [H | H]];
      apply in_or_app; [now left | | now right].
    exfalso; apply Hne; rewrite Hme in H.
    now injection H.
Qed.

Lemma polar_readable_is_own_organization_witness :
  exists others w',
    getReadableUsersWithPermissions (I := Polar.imports) "alice"
      (fresh acme_db)
    = (Normal {| Readable.users := others;
                 Readable.thisUser :=
                   Some (readable_of alice false false) |}, w')
    /\ forall row,
         In row others <->
         exists u, In u (users acme_db) /\ org u = "acme"
                   /\ username u <> "alice"
                   /\ row = readable_of u false false.
Proof.
  apply (polar_readable_is_own_organization alice (fresh acme_db)
           acme_db_pk eq_refl eq_refl).
  - simpl; auto.
  - now left.
Defined.

(** ** The single-entity write path, continued *)

Section SingleWrites.

Context {I : Imports}.

(** [createUser] on a connection with no open block and no cancellation. *)
Lemma createUser_clean (requestor : string) (prev : option (Result string))
    (formData : FormData) (w : world) :
  txn w = NoTxn ->
  faults w = [] ->
  let resource := mkOsoValue "Organization" (fd_organization formData) in
  let auth := authorizeUser (db w) requestor "create_user" resource in
  let params := [fd_username formData; fd_organization formData;
                 fd_role formData] in
  let sent := [EvQuery insertUser params;
               EvAuthorize requestor "create_user" resource true;
               EvConnect] in
  auth = true ->
  createUser requestor prev formData w =
  match run_insert_user params (db w) with
  | inl e =>
      (Normal (Failure (stringifyError (PgError e))),
       {| db := db w; txn := NoTxn; faults := [];
          trace := (EvRelease :: sent ++ trace w)%list |})
  | inr (d', _) =>
      (Normal (Success (fd_username formData)),
       {| db := d'; txn := NoTxn; faults := [];
          trace := (EvRelease :: sent ++ trace w)%list |})
  end.
Proof.
  cbv zeta; intros Ht Hf Hauth.
  unfold createUser; run_action; rewrite Hauth; simpl.
  unfold client_query, cancelled; simpl; rewrite Ht, Hf; simpl.
  unfold run_insert_user.
  repeat match goal with
         | |- context [if ?b then _ else _] => destruct b; simpl
         end; reflexivity.
Qed.

(** [deleteUser] on a connection with no open block and no cancellation. *)
Lemma deleteUser_clean (requestor target : string) (w : world) :
  txn w = NoTxn ->
  faults w = [] ->
  authorizeUser (db w) requestor "delete" (mkOsoValue "User" target) = true ->
  deleteUser requestor target w =
  (Normal tt,
   {| db := {| organizations := organizations (db w);
               users := filter (fun x => negb (username x =? target))
                          (users (db w)) |};
      txn := NoTxn; faults := [];
      trace := EvRelease :: EvQuery deleteUserStmt [target]
                 :: EvAuthorize requestor "delete" (mkOsoValue "User" target)
                      true
                 :: EvConnect :: trace w |}).
Proof.
  intros Ht Hf Hauth.
  unfold deleteUser; run_action; rewrite Hauth; simpl.
  unfold client_query, cancelled; simpl; rewrite Ht, Hf; reflexivity.
Qed.

End SingleWrites.

Lemma mem_string_In (x : string) (l : list string) :
  mem_string x l = true <-> In x l.
Proof.
  unfold mem_string; rewrite existsb_exists; split.
  - intros (y & Hy & E); apply String.eqb_eq in E; now subst.
  - intro H; exists x; split; [exact H | apply String.eqb_refl].
Qed.

(** Once a connection is had, [createUser] returns: whatever the check and
    the server answer, the outcome is a [Result], and a successful one
    carries the username of the form. *)
Lemma createUser_returns_once_connected {I : Imports} (requestor : string)
    (prev : option (Result string)) (formData : FormData) (w : world) :
  exists res,
    fst (createUser requestor prev formData w) = Normal res
    /\ forall value, res = Success value -> value = fd_username formData.
Proof.
  unfold createUser; run_action.
  destruct (authorizeUser _ _ _ _); simpl.
  - step_query; eexists; (split; [reflexivity|]); intros v [=]; auto.
  - eexists; split; [reflexivity|]; discriminate.
Qed.

(** X10.  A call of [createUser] throws exactly when the pool gives no
    connection, and then it throws the pool's error: [pool.connect()] is
    awaited before the [try].  Once a connection is had, whatever the check
    answers and whatever the server answers to the [INSERT], in every state
    of the connection, the call returns a [Result]; a successful one
    carries the username of the form. *)
Theorem createUser_throws_only_without_connection {I : Imports}
    (pool_error : option exn) (requestor : string)
    (prev : option (Result string)) (formData : FormData) (w : world) :
  (forall e,
      fst (with_pool pool_error (createUser requestor prev formData) w)
      = Thrown e
      <-> pool_error = Some e)
  /\ (forall value,
        fst (with_pool pool_error (createUser requestor prev formData) w)
        = Normal (Success value) ->
        value = fd_username formData).
Proof.
  destruct (createUser_returns_once_connected requestor prev formData w)
    as (res & Hres & Hvalue).
  destruct pool_error as [error|]; simpl.
  - split.
    + intro e; split; [intros [= ->]; reflexivity | intros [= ->]; reflexivity].
    + discriminate.
  - rewrite Hres; split.
    + intro e; split; discriminate.
    + intros value [= ->]; now apply Hvalue.
Qed.

(** [createUser] given the three strings of the form, on a connection with
    no open block and no cancellation: the new row, or no change. *)
Lemma createUser_outcome_clean {I : Imports}
    (requestor : string) (prev : option (Result string))
    (formData : FormData) (w : world) :
  txn w = NoTxn ->
  faults w = [] ->
  let created :=
    authorizeUser (db w) requestor "create_user"
      (mkOsoValue "Organization" (fd_organization formData))
    && mem_string (fd_role formData) organization_role
    && negb (mem_string (fd_username formData) (map username (users (db w))))
    && mem_string (fd_organization formData) (organizations (db w)) in
  let '(r, w') := createUser requestor prev formData w in
  if created
  then r = Normal (Success (fd_username formData))
       /\ users (db w')
          = (users (db w)
               ++ [mkUser (fd_username formData) (fd_organization formData)
                     (fd_role formData)])%list
       /\ organizations (db w') = organizations (db w)
       /\ txn w' = NoTxn
  else (exists message, r = Normal (Failure message)) /\ db w' = db w.
Proof.
  intros Ht Hf; cbv zeta.
  destruct (authorizeUser (db w) requestor "create_user" _) eqn:Hauth.
  - rewrite (createUser_clean requestor prev formData w Ht Hf Hauth).
    unfold run_insert_user; cbv beta iota.
    destruct (mem_string (fd_role formData) organization_role);
      destruct (mem_string (fd_username formData) _);
      destruct (mem_string (fd_organization formData) _); simpl;
      first [ split; [eexists; reflexivity | reflexivity]
            | repeat split ].
  - pose proof (createUser_effects requestor prev formData w) as H.
    cbv zeta in H; rewrite Hauth in H; rewrite H; simpl.
    split; [eauto | reflexivity].
Qed.

(** X11.  For a posted form that has the fields [username], [organization]
    and [role], on a connection with no open block and no cancellation,
    [createUser] reports success exactly when the check grants
    [create_user] on the organization, the role is of the enum, the
    username is not taken and the organization exists; then the one new row
    is added to [users] and nothing else changes.  In every other case it
    reports a failure and the tables are as they were.  (Of a form that
    lacks one of the fields nothing is said.) *)
Theorem createUser_creates_or_changes_nothing {I : Imports}
    (requestor : string) (prev : option (Result string))
    (form : PostedForm) (formData : FormData) (w : world) :
  read_form form = Some formData ->
  txn w = NoTxn ->
  faults w = [] ->
  form "username" = Some (fd_username formData)
  /\ form "organization" = Some (fd_organization formData)
  /\ form "role" = Some (fd_role formData)
  /\ let created :=
       authorizeUser (db w) requestor "create_user"
         (mkOsoValue "Organization" (fd_organization formData))
       && mem_string (fd_role formData) organization_role
       && negb (mem_string (fd_username formData)
                  (map username (users (db w))))
       && mem_string (fd_organization formData) (organizations (db w)) in
     let '(r, w') := createUser requestor prev formData w in
     if created
     then r = Normal (Success (fd_username formData))
          /\ users (db w')
             = (users (db w)
                  ++ [mkUser (fd_username formData)
                        (fd_organization formData) (fd_role formData)])%list
          /\ organizations (db w') = organizations (db w)
          /\ txn w' = NoTxn
     else (exists message, r = Normal (Failure message)) /\ db w' = db w.
Proof.
  intros Hform Ht Hf.
  unfold read_form in Hform.
  destruct (form "username") as [u|]; [|discriminate Hform].
  destruct (form "organization") as [o|]; [|discriminate Hform].
  destruct (form "role") as [r|]; [|discriminate Hform].
  injection Hform as <-; cbn [fd_username fd_organization fd_role].
  repeat (split; [reflexivity|]).
  apply (createUser_outcome_clean requestor prev (mkFormData u o r) w Ht Hf).
Qed.

Lemma createUser_creates_or_changes_nothing_witness :
  fst (createUser (I := Polar.imports) "bob" None
         (mkFormData "dave" "acme" "member") (fresh acme_db))
  = Normal (Success "dave")
  /\ users (db (snd (createUser (I := Polar.imports) "bob" None
                       (mkFormData "dave" "acme" "member") (fresh acme_db))))
     = [bob; alice; carol; mkUser "dave" "acme" "member"]
  /\ db (snd (createUser (I := Polar.imports) "bob" None
                (mkFormData "alice" "acme" "member") (fresh acme_db)))
     = acme_db.
Proof.
  pose proof (createUser_creates_or_changes_nothing (I := Polar.imports)
                "bob" None
                (fun name =>
                   if name =? "username" then Some "dave"
                   else if name =? "organization" then Some "acme"
                   else if name =? "role" then Some "member"
                   else None)
                (mkFormData "dave" "acme" "member")
                (fresh acme_db) eq_refl eq_refl eq_refl) as (_ & _ & _ & H1).
  pose proof (createUser_creates_or_changes_nothing (I := Polar.imports)
                "bob" None
                (fun name =>
                   if name =? "username" then Some "alice"
                   else if name =? "organization" then Some "acme"
                   else if name =? "role" then Some "member"
                   else None)
                (mkFormData "alice" "acme" "member")
                (fresh acme_db) eq_refl eq_refl eq_refl) as (_ & _ & _ & H2).
  cbv zeta in H1, H2.
  destruct (createUser _ _ (mkFormData "dave" _ _) _) as [r1 w1].
  destruct (createUser _ _ (mkFormData "alice" _ _) _) as [r2 w2].
  simpl in H1, H2.
  destruct H1 as (Hr & Hu & _), H2 as [_ Hd]; auto.
Defined.

(** X12.  On a connection with no open block and no cancellation, a
    [deleteUser] that the check grants returns, and afterwards [users] holds
    exactly the rows it held whose username is not the target's; the
    organizations are untouched. *)
Theorem deleteUser_removes_the_target_only {I : Imports}
    (requestor target : string) (w : world) :
  txn w = NoTxn ->
  faults w = [] ->
  authorizeUser (db w) requestor "delete" (mkOsoValue "User" target) = true ->
  let '(r, w') := deleteUser requestor target w in
  r = Normal tt
  /\ ~ In target (map username (users (db w')))
  /\ (forall x, In x (users (db w')) <->
                In x (users (db w)) /\ username x <> target)
  /\ organizations (db w') = organizations (db w)
  /\ txn w' = NoTxn.
Proof.
  intros Ht Hf Hauth.
  rewrite (deleteUser_clean requestor target w Ht Hf Hauth); simpl.
  assert (Hin : forall x,
             In x (filter (fun x => negb (username x =? target))
                     (users (db w)))
             <-> In x (users (db w)) /\ username x <> target).
  { intro x; rewrite filter_In, negb_true_iff, String.eqb_neq; tauto. }
  repeat split; try apply Hin; auto.
  intro H; apply in_map_iff in H as (x & E & Hx).
  apply Hin in Hx as [_ Hx]; contradiction.
Qed.

Lemma deleteUser_removes_the_target_only_witness :
  fst (deleteUser (I := Polar.imports) "bob" "alice" (fresh acme_db))
  = Normal tt
  /\ ~ In "alice"
       (map username
          (users (db (snd (deleteUser (I := Polar.imports) "bob" "alice"
                             (fresh acme_db)))))).
Proof.
  pose proof (deleteUser_removes_the_target_only (I := Polar.imports)
                "bob" "alice" (fresh acme_db) eq_refl eq_refl eq_refl) as H.
  destruct (deleteUser _ _ _) as [r w'].
  destruct H as (Hr & Hgone & _); auto.
Defined.

(** X13.  After a [deleteUser] that returned (connection with no open block
    and no cancellation), the deleted username is in nobody's list: the
    read query of no requestor has a row for it. *)
Theorem deleted_user_is_listed_to_nobody {I : Imports}
    (requestor target reader : string) (w : world) :
  txn w = NoTxn ->
  faults w = [] ->
  fst (deleteUser requestor target w) = Normal tt ->
  ~ In target
      (map ru_username
         (readable_rows reader (db (snd (deleteUser requestor target w))))).
Proof.
  intros Ht Hf Hr.
  destruct (authorizeUser (db w) requestor "delete"
              (mkOsoValue "User" target)) eqn:Hauth.
  - rewrite (deleteUser_clean requestor target w Ht Hf Hauth); simpl.
    intro H; apply in_map_iff in H as (row & E & Hrow).
    apply select_users_In in Hrow as (u & Hu & _ & ->); simpl in *.
    apply filter_In in Hu as [_ Hu].
    apply negb_true_iff, String.eqb_neq in Hu; contradiction.
  - pose proof (deleteUser_effects requestor target w) as H.
    cbv zeta in H; rewrite Hauth in H; rewrite H in Hr; discriminate Hr.
Qed.

Lemma deleted_user_is_listed_to_nobody_witness :
  In "alice" (map ru_username (readable_rows (I := Polar.imports) "bob"
                                 acme_db))
  /\ ~ In "alice"
       (map ru_username
          (readable_rows (I := Polar.imports) "bob"
             (db (snd (deleteUser (I := Polar.imports) "bob" "alice"
                         (fresh acme_db)))))).
Proof.
  split; [simpl; auto|].
  apply (deleted_user_is_listed_to_nobody (I := Polar.imports)
           "bob" "alice" "bob" (fresh acme_db) eq_refl eq_refl eq_refl).
Defined.

(** X14.  Under the policy, a user that [createUser] just created
    (connection with no open block and no cancellation) is in the creator's
    list right away, with both permission columns set: the creator may edit
    its role and delete it. *)
Theorem created_user_is_listed_to_its_creator (requestor : string)
    (prev : option (Result string)) (formData : FormData) (w : world)
    (value : string) :
  txn w = NoTxn ->
  faults w = [] ->
  fst (createUser (I := Polar.imports) requestor prev formData w)
  = Normal (Success value) ->
  In (readable_of (mkUser (fd_username formData) (fd_organization formData)
                     (fd_role formData)) true true)
     (readable_rows (I := Polar.imports) requestor
        (db (snd (createUser (I := Polar.imports) requestor prev formData
                    w)))).
Proof.
  intros Ht Hf Hr.
  destruct (@authorizeUser Polar.imports (db w) requestor "create_user"
              (mkOsoValue "Organization" (fd_organization formData)))
    eqn:Hauth.
  2:{ pose proof (createUser_effects (I := Polar.imports) requestor prev
                    formData w) as H.
      cbv zeta in H; rewrite Hauth in H; rewrite H in Hr; discriminate Hr. }
  rewrite (createUser_clean (I := Polar.imports) requestor prev formData w
             Ht Hf Hauth) in Hr |- *.
  destruct (run_insert_user _ _) as [e | [d' n]] eqn:Ei; [discriminate Hr|].
  assert (Hd' : users d'
                = (users (db w)
                     ++ [mkUser (fd_username formData)
                           (fd_organization formData) (fd_role formData)])%list).
  { unfold run_insert_user in Ei.
    repeat match type of Ei with
           | (if ?b then _ else _) = _ => destruct b; try discriminate Ei
           end.
    now injection Ei as <- _. }
  simpl in Hauth; unfold Polar.allowed, Polar.organization_permission in Hauth;
    cbn [oso_type oso_id String.eqb Ascii.eqb Bool.eqb] in Hauth.
  apply has_role_true in Hauth as (x & Hx & Eu & Eo & Hrole).
  assert (Hadmin : role x = "admin")
    by (destruct Hrole as [? | [E _]]; [assumption | discriminate]).
  set (new := mkUser (fd_username formData) (fd_organization formData)
                (fd_role formData)) in *.
  assert (Hgrant : forall action role_name,
             Polar.role_on_parent action = Some role_name ->
             Polar.allowed d' requestor action
               (mkOsoValue "User" (username new)) = true).
  { intros action r Hr'.
    unfold Polar.allowed;
      cbn [oso_type oso_id String.eqb Ascii.eqb Bool.eqb].
    apply user_permission_true; exists r, new, x.
    rewrite Hd'.
    split; [exact Hr'|].
    split; [apply in_or_app; right; now left|].
    split; [reflexivity|].
    split; [apply in_or_app; now left|].
    split; [exact Eu|].
    split; [exact Eo|].
    apply role_on_parent_cases in Hr' as [[_ ->] | [_ ->]]; auto. }
  cbn [snd db].
  unfold readable_rows; apply select_users_In.
  exists new; split; [rewrite Hd'; apply in_or_app; right; now left|].
  unfold readableUsersCond, editableRoleUsersCond, deleteUsersCond;
    cbn [oso_listLocal Polar.imports Polar.fragment frag_holds oso_type oso_id
         String.eqb Ascii.eqb Bool.eqb andb].
  split; [now apply (Hgrant "read" "member")|].
  unfold readable_of.
  rewrite (Hgrant "edit_role" "admin"), (Hgrant "delete" "admin");
    reflexivity.
Qed.

Lemma created_user_is_listed_to_its_creator_witness :
  In (readable_of (mkUser "dave" "acme" "member") true true)
     (readable_rows (I := Polar.imports) "bob"
        (db (snd (createUser (I := Polar.imports) "bob" None
                    (mkFormData "dave" "acme" "member") (fresh acme_db))))).
Proof.
  apply (created_user_is_listed_to_its_creator "bob" None
           (mkFormData "dave" "acme" "member") (fresh acme_db) "dave"
           eq_refl eq_refl eq_refl).
Defined.

(** ** The batch write path, continued *)

Section BatchMore.

Context {I : Imports}.
Variables (requestor : string) (updates : list User).

(** An answered update that touched as many rows as there are updates
    wrote role names of the enum only. *)
Lemma update_answer_valid_roles (d d' : database) :
  users_pk d ->
  update_answer requestor updates d = inr (d', length updates) ->
  forall u, In u updates -> mem_string (role u) organization_role = true.
Proof.
  intros Hpk Ha u Hu.
  destruct (update_answer_count requestor updates d d' _ Hpk Ha)
    as [_ Hfull].
  destruct (Hfull eq_refl) as [_ Hall].
  destruct (Hall u Hu) as [Hin Hc].
  apply in_map_iff in Hin as (x & Ex & Hx).
  assert (Hne : updates <> []) by (intros ->; destruct Hu).
  rewrite update_answer_unfold in Ha by assumption.
  destruct (find _ _) eqn:Ef; [discriminate Ha|].
  apply find_none with (x := (username u, role u)) in Ef;
    [now apply negb_false_iff in Ef|].
  apply in_flat_map; exists x; split; [exact Hx|].
  apply joined_In; rewrite Ex; repeat split; auto.
  apply in_map_iff; eauto.
Qed.

(** The action returns exactly when the update is answered with the count
    it asked for. *)
Lemma editUsers_returns_iff (w : world) :
  txn w = NoTxn ->
  faults w = [] ->
  fst (editUsersRoleByUsername requestor updates w) = Normal tt
  <-> exists d', update_answer requestor updates (db w)
                 = inr (d', length updates).
Proof.
  intros Ht Hf.
  rewrite (editUsers_clean requestor updates w Ht Hf); cbv zeta.
  destruct (update_answer requestor updates (db w)) as [e | [d' k]].
  - split; [discriminate | intros [? [=]]].
  - destruct (k =? length updates)%nat eqn:Ek; simpl.
    + apply Nat.eqb_eq in Ek; subst k; split; eauto.
    + apply Nat.eqb_neq in Ek; split; [discriminate|].
      intros [d'' [= _ E]]; contradiction.
Qed.

End BatchMore.

(** X15.  For a non-empty batch with role names of the enum (usernames
    distinct in [users], connection with no open block and no
    cancellation), [editUsersRoleByUsername] returns exactly when the
    updates name distinct users that all have a row and all pass the
    requestor's [edit_role] fragment: the row count check lets through
    nothing else and refuses nothing of that kind. *)
Theorem batch_returns_exactly_when_all_pass {I : Imports} (requestor : string)
    (updates : list User) (w : world) :
  updates <> [] ->
  users_pk (db w) ->
  txn w = NoTxn ->
  faults w = [] ->
  (forall u, In u updates -> mem_string (role u) organization_role = true) ->
  fst (editUsersRoleByUsername requestor updates w) = Normal tt
  <-> NoDup (map username updates)
      /\ forall u, In u updates ->
           In (username u) (map username (users (db w)))
           /\ frag_holds (editRoleAuthorized requestor) (db w) (username u)
              = true.
Proof.
  intros Hne Hpk Ht Hf Hvalid.
  rewrite (editUsers_returns_iff requestor updates w Ht Hf); split.
  - intros [d' Ha].
    destruct (update_answer_count requestor updates (db w) d' _ Hpk Ha)
      as [_ Hfull].
    now apply Hfull.
  - intros [Hnd Hall].
    destruct (update_answer_all requestor updates (db w) Hne Hpk Hnd)
      as (d' & Ha & _); [|eauto].
    intros u Hu; destruct (Hall u Hu); auto.
Qed.

Lemma batch_returns_exactly_when_all_pass_witness :
  fst (editUsersRoleByUsername (I := Polar.imports) "bob"
         [mkUser "alice" "acme" "admin"] (fresh acme_db)) = Normal tt
  <-> NoDup ["alice"]
      /\ forall u, In u [mkUser "alice" "acme" "admin"] ->
           In (username u) ["bob"; "alice"; "carol"]
           /\ Polar.allowed acme_db "bob" "edit_role"
                (mkOsoValue "User" (username u)) = true.
Proof.
  apply (batch_returns_exactly_when_all_pass (I := Polar.imports) "bob"
           [mkUser "alice" "acme" "admin"] (fresh acme_db)
           ltac:(discriminate) acme_db_pk eq_refl eq_refl).
  intros u [<- | []]; reflexivity.
Defined.

(** X16.  Whatever the state of the connection, a call of
    [editUsersRoleByUsername] that throws has committed nothing: the
    committed tables are as before the call. *)
Theorem batch_throw_commits_nothing {I : Imports} (requestor : string)
    (updates : list User) (w : world) (e : exn) :
  fst (editUsersRoleByUsername requestor updates w) = Thrown e ->
  committed (snd (editUsersRoleByUsername requestor updates w)) = committed w.
Proof.
  unfold editUsersRoleByUsername; run_action.
  unfold client_query, cancelled, committed; simpl.
  destruct w as [d t f tr]; simpl.
  destruct t as [|s|s]; destruct f as [|[|] [|[|] [|[|] f]]]; simpl;
    try (intros _; reflexivity);
    destruct (run_update_roles _ _ _ _) as [e0 | [d' k]]; simpl;
    try (intros _; reflexivity);
    destruct (negb _); simpl; intro H; try discriminate H; reflexivity.
Qed.

Lemma batch_throw_commits_nothing_witness :
  fst (editUsersRoleByUsername (I := Polar.imports) "alice"
         [mkUser "bob" "acme" "member"] (fresh acme_db))
  = Thrown not_permitted_to_edit
  /\ committed (snd (editUsersRoleByUsername (I := Polar.imports) "alice"
                       [mkUser "bob" "acme" "member"] (fresh acme_db)))
     = acme_db.
Proof.
  split; [reflexivity|].
  apply (batch_throw_commits_nothing (I := Polar.imports) "alice"
           [mkUser "bob" "acme" "member"] (fresh acme_db)
           not_permitted_to_edit eq_refl).
Defined.

(** X17.  [editUsersRoleByUsername] does not wait for the answer to its
    [COMMIT]: when the update is answered with the full count and the
    [COMMIT] is then cancelled, the call still returns normally, although
    nothing is committed and the block is left open, aborted, on the
    released connection. *)
Theorem batch_return_does_not_wait_for_commit {I : Imports}
    (requestor : string) (updates : list User) (w : world) (d' : database)
    (rest : list bool) :
  txn w = NoTxn ->
  faults w = false :: false :: true :: rest ->
  update_answer requestor updates (db w) = inr (d', length updates) ->
  fst (editUsersRoleByUsername requestor updates w) = Normal tt
  /\ committed (snd (editUsersRoleByUsername requestor updates w)) = db w
  /\ txn (snd (editUsersRoleByUsername requestor updates w))
     = Aborted (db w)
  /\ hd_error (trace (snd (editUsersRoleByUsername requestor updates w)))
     = Some EvRelease.
Proof.
  intros Ht Hf Ha.
  unfold editUsersRoleByUsername; run_action.
  unfold client_query, cancelled, committed; simpl; rewrite Ht, Hf; simpl.
  unfold update_answer, editRoleAuthorized in Ha; rewrite Ha; simpl.
  rewrite Nat.eqb_refl; simpl; auto.
Qed.

Lemma batch_return_does_not_wait_for_commit_witness :
  fst (editUsersRoleByUsername (I := Polar.imports) "bob"
         [mkUser "alice" "acme" "admin"]
         {| db := acme_db; txn := NoTxn; faults := [false; false; true];
            trace := [] |}) = Normal tt
  /\ committed (snd (editUsersRoleByUsername (I := Polar.imports) "bob"
                       [mkUser "alice" "acme" "admin"]
                       {| db := acme_db; txn := NoTxn;
                          faults := [false; false; true]; trace := [] |}))
     = acme_db.
Proof.
  destruct (batch_return_does_not_wait_for_commit (I := Polar.imports) "bob"
              [mkUser "alice" "acme" "admin"]
              {| db := acme_db; txn := NoTxn; faults := [false; false; true];
                 trace := [] |}
              {| organizations := ["acme"; "initech"];
                 users := [bob; mkUser "alice" "acme" "admin"; carol] |}
              [] eq_refl eq_refl eq_refl) as (Hr & Hc & _).
  split; assumption.
Defined.

(** X18.  After a call of [editUsersRoleByUsername] that returned
    (usernames distinct in [users], connection with no open block and no
    cancellation), every update shows: its role name is of the enum, and in
    the list of any requestor the row of an updated user carries the new
    role. *)
Theorem returned_batch_shows_its_roles {I : Imports}
    (requestor reader : string) (updates : list User) (w : world)
    (u : User) (row : ReadableUser) :
  users_pk (db w) ->
  txn w = NoTxn ->
  faults w = [] ->
  fst (editUsersRoleByUsername requestor updates w) = Normal tt ->
  In u updates ->
  In row (readable_rows reader
            (db (snd (editUsersRoleByUsername requestor updates w)))) ->
  ru_username row = username u ->
  ru_role row = role u /\ mem_string (role u) organization_role = true.
Proof.
  intros Hpk Ht Hf Hr Hu Hrow Erow.
  apply (editUsers_returns_iff requestor updates w Ht Hf) in Hr as [d' Ha].
  rewrite (editUsers_clean requestor updates w Ht Hf) in Hrow;
    cbv zeta in Hrow.
  rewrite Ha, Nat.eqb_refl in Hrow; cbn [snd db] in Hrow.
  pose proof (update_answer_valid_roles requestor updates (db w) d' Hpk Ha)
    as Hvalid.
  split; [|now apply Hvalid].
  assert (Hpk' : users_pk d')
    by (eapply update_roles_keeps_pk; [exact Hpk | exact Ha]).
  destruct (update_answer_count requestor updates (db w) d' _ Hpk Ha)
    as [_ Hfull].
  destruct (Hfull eq_refl) as [Hnd Hall].
  assert (Hne : updates <> []) by (intros ->; destruct Hu).
  destruct (update_answer_all requestor updates (db w) Hne Hpk Hnd)
    as (d'' & Ha' & _ & _ & Hnew & _).
  { intros v Hv; destruct (Hall v Hv); auto. }
  rewrite Ha in Ha'; injection Ha' as <-.
  destruct (Hnew u Hu) as (x & _ & Ex & Hin).
  apply select_users_In in Hrow as (y & Hy & _ & ->); simpl in *.
  assert (E : y = set_role x (role u))
    by (apply (unique_row d'); auto; simpl; congruence).
  now rewrite E.
Qed.

Lemma returned_batch_shows_its_roles_witness :
  forallb (fun row => negb (ru_username row =? "alice")
                      || (ru_role row =? "admin"))
    (readable_rows (I := Polar.imports) "bob"
       (db (snd (editUsersRoleByUsername (I := Polar.imports) "bob"
                   [mkUser "alice" "acme" "admin"] (fresh acme_db)))))
  = true.
Proof.
  apply forallb_forall; intros row Hrow.
  destruct (ru_username row =? "alice") eqn:E; [|reflexivity].
  apply String.eqb_eq in E; simpl.
  apply String.eqb_eq.
  apply (returned_batch_shows_its_roles (I := Polar.imports) "bob" "bob"
           [mkUser "alice" "acme" "admin"] (fresh acme_db)
           (mkUser "alice" "acme" "admin") row acme_db_pk eq_refl eq_refl
           eq_refl (or_introl eq_refl) Hrow E).
Defined.

(** ** Usernames stay distinct *)

Lemma client_query_pk (q : Sql) (params : list string) (w : world) :
  pk_safe q -> world_pk w -> world_pk (snd (client_query q params w)).
Proof.
  unfold pk_safe, world_pk, client_query, cancelled, committed.
  intros Hsafe [Hd Hc].
  destruct (hd false (faults w)).
  - unfold failed; destruct (txn w); simpl; auto.
  - destruct (sql_meaning_of q) as [| | |run|run], (txn w) as [|s|s];
      simpl; auto;
      try (destruct (run params (db w)) as [e | rs]; simpl; auto; fail).
    + destruct (run params (db w)) as [e | [d' n]] eqn:E; simpl; eauto.
    + destruct (run params (db w)) as [e | [d' n]] eqn:E; simpl; eauto.
Qed.

Lemma pk_safe_BEGIN : pk_safe BEGIN.
Proof. exact I. Qed.

Lemma pk_safe_COMMIT : pk_safe COMMIT.
Proof. exact I. Qed.

Lemma pk_safe_ROLLBACK : pk_safe ROLLBACK.
Proof. exact I. Qed.

Lemma pk_safe_select (editC deleteC readC : Fragment) :
  pk_safe (usersWPermissions editC deleteC readC).
Proof. exact I. Qed.

Lemma pk_safe_insertUser : pk_safe insertUser.
Proof. exact insert_user_keeps_pk. Qed.

Lemma pk_safe_deleteUserStmt : pk_safe deleteUserStmt.
Proof. exact delete_user_keeps_pk. Qed.

Lemma pk_safe_updateRoles (updates : list User) (cond : Fragment) :
  pk_safe (updateRoles updates cond).
Proof.
  intros params d d' n; apply update_roles_keeps_pk.
Qed.

Create HintDb pk.

#[local] Hint Resolve pk_safe_BEGIN pk_safe_COMMIT pk_safe_ROLLBACK
  pk_safe_select pk_safe_insertUser pk_safe_deleteUserStmt
  pk_safe_updateRoles : pk.

(** Splits on the answer to the next query of the goal, keeping that the
    usernames are still distinct after it. *)
Ltac step_query_pk :=
  match goal with
  | Hpk : world_pk _ |- context [client_query ?q ?ps ?w0] =>
      let P := fresh "P" in
      assert (P : world_pk (snd (client_query q ps w0)))
        by (apply client_query_pk; [auto with pk | exact Hpk]);
      clear Hpk;
      destruct (client_query q ps w0) as [[?r | ?e] ?w1];
      simpl in P |- *
  end.

(** X19.  Each of the four actions keeps usernames distinct, in what the
    connection sees and in what is committed, whatever the state of the
    connection and however the call ends. *)
Theorem actions_keep_usernames_distinct {I : Imports} (w : world)
    (requestor target : string) (prev : option (Result string))
    (formData : FormData) (updates : list User) :
  world_pk w ->
  world_pk (snd (getReadableUsersWithPermissions requestor w))
  /\ world_pk (snd (createUser requestor prev formData w))
  /\ world_pk (snd (deleteUser requestor target w))
  /\ world_pk (snd (editUsersRoleByUsername requestor updates w)).
Proof.
  intro Hpk; split; [|split; [|split]].
  - unfold getReadableUsersWithPermissions; run_action.
    step_query_pk; [|assumption].
    destruct (Js.findIndex _ _ =? -1)%Z; simpl; assumption.
  - unfold createUser; run_action.
    destruct (authorizeUser _ _ _ _); simpl; [|exact Hpk].
    step_query_pk; assumption.
  - unfold deleteUser; run_action.
    destruct (authorizeUser _ _ _ _); simpl; [|exact Hpk].
    step_query_pk; assumption.
  - unfold editUsersRoleByUsername; run_action.
    step_query_pk; [|assumption].
    step_query_pk; [|assumption].
    destruct (negb _); simpl; step_query_pk; assumption.
Qed.

Lemma actions_keep_usernames_distinct_witness :
  world_pk (snd (createUser (I := Polar.imports) "bob" None
                   (mkFormData "alice" "acme" "admin") (fresh acme_db)))
  /\ world_pk (snd (editUsersRoleByUsername (I := Polar.imports) "bob"
                      [mkUser "alice" "acme" "admin";
                       mkUser "alice" "acme" "member"] (fresh acme_db))).
Proof.
  assert (H : world_pk (fresh acme_db)) by (split; exact acme_db_pk).
  split.
  - apply (actions_keep_usernames_distinct (I := Polar.imports)
             (fresh acme_db) "bob" "x" None
             (mkFormData "alice" "acme" "admin") [] H).
  - apply (actions_keep_usernames_distinct (I := Polar.imports)
             (fresh acme_db) "bob" "x" None (mkFormData "a" "b" "c")
             [mkUser "alice" "acme" "admin"; mkUser "alice" "acme" "member"]
             H).
Defined.

(** ** The write paths under the policy *)

(** What a successful [createUser] under the policy tells: the creator has
    an admin row in the organization, the username was free, and the one
    row was added. *)
Lemma createUser_polar_success (requestor : string)
    (prev : option (Result string)) (formData : FormData) (w : world)
    (value : string) :
  txn w = NoTxn ->
  faults w = [] ->
  fst (createUser (I := Polar.imports) requestor prev formData w)
  = Normal (Success value) ->
  (exists x, In x (users (db w)) /\ username x = requestor
             /\ org x = fd_organization formData /\ role x = "admin")
  /\ ~ In (fd_username formData) (map username (users (db w)))
  /\ snd (createUser (I := Polar.imports) requestor prev formData w)
     = {| db := {| organizations := organizations (db w);
                   users := (users (db w)
                               ++ [mkUser (fd_username formData)
                                     (fd_organization formData)
                                     (fd_role formData)])%list |};
          txn := NoTxn;
          faults := [];
          trace := EvRelease
            :: EvQuery insertUser
                 [fd_username formData; fd_organization formData;
                  fd_role formData]
            :: EvAuthorize requestor "create_user"
                 (mkOsoValue "Organization" (fd_organization formData)) true
            :: EvConnect :: trace w |}.
Proof.
  intros Ht Hf Hr.
  destruct (@authorizeUser Polar.imports (db w) requestor "create_user"
              (mkOsoValue "Organization" (fd_organization formData)))
    eqn:Hauth.
  2:{ pose proof (createUser_effects (I := Polar.imports) requestor prev
                    formData w) as H.
      cbv zeta in H; rewrite Hauth in H; rewrite H in Hr; discriminate Hr. }
  rewrite (createUser_clean (I := Polar.imports) requestor prev formData w
             Ht Hf Hauth) in Hr |- *.
  simpl in Hauth; unfold Polar.allowed, Polar.organization_permission in Hauth;
    cbn [oso_type oso_id String.eqb Ascii.eqb Bool.eqb] in Hauth.
  apply has_role_true in Hauth as (x & Hx & Eu & Eo & Hrole).
  split.
  { exists x; repeat split; auto.
    destruct Hrole as [? | [E _]]; [assumption | discriminate]. }
  unfold run_insert_user in Hr |- *.
  destruct (negb (mem_string (fd_role formData) organization_role));
    [discriminate Hr|].
  destruct (mem_string (fd_username formData) _) eqn:Efree;
    [discriminate Hr|].
  destruct (negb (mem_string (fd_organization formData) _));
    [discriminate Hr|].
  split; [|reflexivity].
  intro Hin; apply mem_string_In in Hin; congruence.
Qed.

Lemma filter_out_appended (target : string) (table : list User) (new : User) :
  ~ In target (map username table) ->
  username new = target ->
  filter (fun x => negb (username x =? target)) (table ++ [new])%list = table.
Proof.
  intros Hfree Enew.
  rewrite filter_app; simpl.
  replace (username new =? target) with true
    by (symmetry; now apply String.eqb_eq).
  simpl; rewrite app_nil_r.
  induction table as [|y t IH]; simpl; [reflexivity|].
  simpl in Hfree.
  replace (username y =? target) with false
    by (symmetry; apply String.eqb_neq; intuition).
  simpl; f_equal; apply IH; intuition.
Qed.

(** X20.  Under the policy, creating a user and deleting it again is a
    round trip (connection with no open block and no cancellation): after a
    successful [createUser] the creator's [deleteUser] of the new username
    is granted and returns, and the tables are those before the creation. *)
Theorem create_then_delete_restores_tables (requestor : string)
    (prev : option (Result string)) (formData : FormData) (w : world)
    (value : string) :
  txn w = NoTxn ->
  faults w = [] ->
  fst (createUser (I := Polar.imports) requestor prev formData w)
  = Normal (Success value) ->
  let w1 := snd (createUser (I := Polar.imports) requestor prev formData w) in
  fst (deleteUser (I := Polar.imports) requestor (fd_username formData) w1)
  = Normal tt
  /\ db (snd (deleteUser (I := Polar.imports) requestor
                (fd_username formData) w1))
     = db w.
Proof.
  intros Ht Hf Hr; cbv zeta.
  destruct (createUser_polar_success requestor prev formData w value Ht Hf Hr)
    as ((x & Hx & Eu & Eo & Hadmin) & Hfree & ->).
  rewrite (deleteUser_clean (I := Polar.imports)); try reflexivity.
  - simpl; split; [reflexivity|].
    rewrite filter_out_appended by auto.
    now destruct (db w).
  - simpl; unfold Polar.allowed;
      cbn [oso_type oso_id String.eqb Ascii.eqb Bool.eqb].
    apply user_permission_true.
    exists "admin", (mkUser (fd_username formData) (fd_organization formData)
                       (fd_role formData)), x.
    split; [reflexivity|].
    split; [apply in_or_app; right; now left|].
    split; [reflexivity|].
    split; [apply in_or_app; now left|].
    auto.
Qed.

Lemma create_then_delete_restores_tables_witness :
  db (snd (deleteUser (I := Polar.imports) "bob" "dave"
             (snd (createUser (I := Polar.imports) "bob" None
                     (mkFormData "dave" "acme" "member") (fresh acme_db)))))
  = acme_db.
Proof.
  apply (create_then_delete_restores_tables "bob" None
           (mkFormData "dave" "acme" "member") (fresh acme_db) "dave"
           eq_refl eq_refl eq_refl).
Defined.

Lemma polar_edit_needs_an_admin_row (d : database) (actor target : string) :
  (forall x, In x (users d) -> username x = actor -> role x <> "admin") ->
  Polar.allowed d actor "edit_role" (mkOsoValue "User" target) = false.
Proof.
  intro Hno.
  destruct (Polar.allowed d actor "edit_role" (mkOsoValue "User" target))
    eqn:E; [|reflexivity].
  unfold Polar.allowed in E;
    cbn [oso_type oso_id String.eqb Ascii.eqb Bool.eqb] in E.
  apply user_permission_true in E
    as (r & t & x & Er & _ & _ & Hx & Eu & _ & Hr).
  injection Er as <-.
  destruct Hr as [Hr | [E _]]; [|discriminate].
  now apply Hno in Hx.
Qed.

(** Under the policy the update of a requestor without an admin row
    joins no row: it is answered with a count of zero. *)
Lemma polar_non_admin_touches_nothing (requestor : string)
    (updates : list User) (d : database) :
  updates <> [] ->
  (forall x, In x (users d) -> username x = requestor -> role x <> "admin") ->
  exists d',
    update_answer (I := Polar.imports) requestor updates d = inr (d', 0).
Proof.
  intros Hne Hno.
  assert (Hjoin : forall x,
             joined (editRoleAuthorized (I := Polar.imports) requestor)
               d (map (fun u => (username u, role u)) updates) x = []).
  { intro x; unfold joined, editRoleAuthorized;
      cbn [oso_listLocal Polar.imports Polar.fragment frag_holds oso_type
           oso_id String.eqb Ascii.eqb Bool.eqb andb].
    now rewrite polar_edit_needs_an_admin_row. }
  rewrite update_answer_unfold by assumption.
  assert (Hflat : forall table,
             flat_map (joined
                         (editRoleAuthorized (I := Polar.imports) requestor)
                         d (map (fun u => (username u, role u)) updates))
               table = [])
    by (induction table as [|x t IH]; simpl;
        [reflexivity | now rewrite Hjoin]).
  assert (Hcount : forall table,
             length (filter
                       (fun u =>
                          match joined
                                  (editRoleAuthorized (I := Polar.imports)
                                     requestor)
                                  d
                                  (map (fun u => (username u, role u))
                                     updates) u with
                          | [] => false
                          | _ :: _ => true
                          end) table) = 0)
    by (induction table as [|x t IH]; simpl;
        [reflexivity | now rewrite Hjoin]).
  rewrite Hflat, Hcount; simpl; eauto.
Qed.

(** X21.  Under the policy, a requestor without an admin row changes no
    role: every non-empty batch it submits, whatever usernames and role
    names it holds, is answered with a count of zero, rolled back and
    refused as not permitted, the tables as they were (connection with no
    open block and no cancellation). *)
Theorem polar_batch_of_a_non_admin_is_refused (requestor : string)
    (updates : list User) (w : world) :
  updates <> [] ->
  txn w = NoTxn ->
  faults w = [] ->
  (forall x, In x (users (db w)) -> username x = requestor ->
             role x <> "admin") ->
  fst (editUsersRoleByUsername (I := Polar.imports) requestor updates w)
  = Thrown not_permitted_to_edit
  /\ db (snd (editUsersRoleByUsername (I := Polar.imports) requestor updates
                w))
     = db w
  /\ txn (snd (editUsersRoleByUsername (I := Polar.imports) requestor updates
                 w))
     = NoTxn.
Proof.
  intros Hne Ht Hf Hno.
  destruct (polar_non_admin_touches_nothing requestor updates (db w) Hne Hno)
    as [d' Ha].
  rewrite (editUsers_clean (I := Polar.imports) requestor updates w Ht Hf);
    cbv zeta.
  rewrite Ha.
  destruct updates; [contradiction | simpl; auto].
Qed.

Lemma polar_batch_of_a_non_admin_is_refused_witness :
  fst (editUsersRoleByUsername (I := Polar.imports) "alice"
         [mkUser "bob" "acme" "owner"; mkUser "zed" "acme" "member"]
         (fresh acme_db))
  = Thrown not_permitted_to_edit.
Proof.
  apply (polar_batch_of_a_non_admin_is_refused "alice"
           [mkUser "bob" "acme" "owner"; mkUser "zed" "acme" "member"]
           (fresh acme_db) ltac:(discriminate) eq_refl eq_refl).
  simpl; intros x [<- | [<- | [<- | []]]]; discriminate.
Defined.

(** The tables after a batch that returned: still keyed by username, each
    updated user's row carrying its new role, the connection idle again. *)
Lemma returned_batch_rows {I : Imports} (requestor : string)
    (updates : list User) (w : world) :
  users_pk (db w) ->
  txn w = NoTxn ->
  faults w = [] ->
  fst (editUsersRoleByUsername requestor updates w) = Normal tt ->
  let w' := snd (editUsersRoleByUsername requestor updates w) in
  users_pk (db w') /\ txn w' = NoTxn /\ faults w' = []
  /\ forall u, In u updates ->
       exists x, username x = username u
                 /\ In (set_role x (role u)) (users (db w')).
Proof.
  intros Hpk Ht Hf Hr; cbv zeta.
  apply (editUsers_returns_iff requestor updates w Ht Hf) in Hr as [d' Ha].
  rewrite (editUsers_clean requestor updates w Ht Hf); cbv zeta.
  rewrite Ha, Nat.eqb_refl; cbn [snd db txn faults].
  split; [eapply update_roles_keeps_pk; [exact Hpk | exact Ha]|].
  split; [reflexivity|]; split; [reflexivity|].
  intros u Hu.
  pose proof (update_answer_valid_roles requestor updates (db w) d' Hpk Ha)
    as Hvalid.
  destruct (update_answer_count requestor updates (db w) d' _ Hpk Ha)
    as [_ Hfull].
  destruct (Hfull eq_refl) as [Hnd Hall].
  assert (Hne : updates <> []) by (intros ->; destruct Hu).
  destruct (update_answer_all requestor updates (db w) Hne Hpk Hnd)
    as (d'' & Ha' & _ & _ & Hnew & _).
  { intros v Hv; destruct (Hall v Hv); auto. }
  rewrite Ha in Ha'; injection Ha' as <-.
  destruct (Hnew u Hu) as (x & _ & Ex & Hin); eauto.
Qed.

(** A requestor without an admin row, on a connection with no open block
    and no cancellation: its batch is refused, and the world it leaves is
    as before but for the chronicle. *)
Lemma polar_refused_step (requestor : string) (updates : list User)
    (w : world) :
  updates <> [] ->
  txn w = NoTxn ->
  faults w = [] ->
  (forall x, In x (users (db w)) -> username x = requestor ->
             role x <> "admin") ->
  exists w',
    editUsersRoleByUsername (I := Polar.imports) requestor updates w
    = (Thrown not_permitted_to_edit, w')
    /\ db w' = db w /\ txn w' = NoTxn /\ faults w' = [].
Proof.
  intros Hne Ht Hf Hno.
  destruct (polar_non_admin_touches_nothing requestor updates (db w) Hne Hno)
    as [d' Ha].
  rewrite (editUsers_clean (I := Polar.imports) requestor updates w Ht Hf);
    cbv zeta.
  rewrite Ha.
  destruct updates; [contradiction | simpl; eauto].
Qed.

Lemma polar_refused_each (requestor : string) (batches : list (list User)) :
  Forall (fun updates => updates <> []) batches ->
  forall w,
    txn w = NoTxn ->
    faults w = [] ->
    (forall x, In x (users (db w)) -> username x = requestor ->
               role x <> "admin") ->
    Forall (fun r => r = Thrown not_permitted_to_edit)
      (fst (editUsersRoleByUsername_each (I := Polar.imports) requestor
              batches w))
    /\ db (snd (editUsersRoleByUsername_each (I := Polar.imports) requestor
                  batches w))
       = db w.
Proof.
  induction 1 as [|updates later Hne _ IH]; intros w Ht Hf Hno; simpl.
  - split; [constructor | reflexivity].
  - destruct (polar_refused_step requestor updates w Hne Ht Hf Hno)
      as (w1 & -> & Hd & Ht1 & Hf1).
    destruct (IH w1 Ht1 Hf1) as [Hrs Hd2]; [now rewrite Hd|].
    destruct (editUsersRoleByUsername_each requestor later w1) as [rs w2].
    simpl in *; split; [now constructor | congruence].
Qed.

(** X22.  Under the policy, an admin that has set its own role to [member]
    through [editUsersRoleByUsername] cannot take it back by itself: the
    non-empty batches the same requestor submits after that call has
    returned, one after another and with no other call in between, are all
    refused as not permitted and change no table (usernames distinct in
    [users], connection with no open block and no cancellation).  What
    another admin does for it later is not covered. *)
Theorem polar_self_demotion_is_not_undone_alone
    (requestor organization : string) (batches : list (list User))
    (w : world) :
  users_pk (db w) ->
  txn w = NoTxn ->
  faults w = [] ->
  fst (editUsersRoleByUsername (I := Polar.imports) requestor
         [mkUser requestor organization "member"] w) = Normal tt ->
  Forall (fun updates => updates <> []) batches ->
  let w1 := snd (editUsersRoleByUsername (I := Polar.imports) requestor
                   [mkUser requestor organization "member"] w) in
  Forall (fun r => r = Thrown not_permitted_to_edit)
    (fst (editUsersRoleByUsername_each (I := Polar.imports) requestor batches
            w1))
  /\ db (snd (editUsersRoleByUsername_each (I := Polar.imports) requestor
                batches w1))
     = db w1.
Proof.
  intros Hpk Ht Hf Hr Hne; cbv zeta.
  destruct (returned_batch_rows (I := Polar.imports) requestor
              [mkUser requestor organization "member"] w Hpk Ht Hf Hr)
    as (Hpk' & Ht' & Hf' & Hrows).
  destruct (Hrows _ (or_introl eq_refl)) as (x0 & E0 & Hin0);
    simpl in E0, Hin0.
  apply polar_refused_each; try assumption.
  intros x Hx Ex.
  rewrite (unique_row _ x (set_role x0 "member") Hpk' Hx Hin0)
    by (simpl; congruence).
  discriminate.
Qed.

Lemma polar_self_demotion_is_not_undone_alone_witness :
  fst (editUsersRoleByUsername_each (I := Polar.imports) "bob"
         [[mkUser "bob" "acme" "admin"];
          [mkUser "alice" "acme" "admin"; mkUser "bob" "acme" "admin"]]
         (snd (editUsersRoleByUsername (I := Polar.imports) "bob"
                 [mkUser "bob" "acme" "member"] (fresh acme_db))))
  = [Thrown not_permitted_to_edit; Thrown not_permitted_to_edit].
Proof.
  destruct (polar_self_demotion_is_not_undone_alone "bob" "acme"
              [[mkUser "bob" "acme" "admin"];
               [mkUser "alice" "acme" "admin"; mkUser "bob" "acme" "admin"]]
              (fresh acme_db) acme_db_pk eq_refl eq_refl eq_refl)
    as [Hall _].
  - repeat constructor; discriminate.
  - cbv zeta in Hall.
    destruct (fst (editUsersRoleByUsername_each _ _ _)) as [|r1 [|r2 [|r3 l]]]
      eqn:E; try discriminate E.
    apply Forall_cons_iff in Hall as [-> Hall].
    apply Forall_cons_iff in Hall as [-> _].
    reflexivity.
Defined.
